(** * ibis: typed expression nodes and the ClickHouse type grammar

    A shallow embedding of

    - [ibis/expr/operations/logical.py]: the logical, comparison, [Between],
      [InValues] and [IfElse] operation classes;
    - the table of [ibis/backends/clickhouse/tests/test_types.py], which
      fixes what [parse] returns on ClickHouse type declarations;
    - [ibis/backends/datafusion/__init__.py]: registration of sources,
      UDFs and in-memory tables, [_metadata] and [create_table], as the
      calls they make on the session.

    The modules these files import ([ibis.expr.datatypes],
    [ibis.expr.rules], [ibis.common.annotations], the ClickHouse [parse]
    itself) are not among the sources; every definition that stands for one
    of them says so in its comment. *)

From Stdlib Require Import String Ascii List Bool Arith Lia DecimalString
  DecimalNat.
Import ListNotations.
Local Open Scope list_scope.
Local Open Scope string_scope.

(** ** Data types: [ibis.expr.datatypes], imported as [dt] *)

Module dt.

(** Modelled from the spec: the [DataType] classes, which logical.py and
    test_types.py name but do not define.  A tagged variant; every node
    carries its own [nullable] flag (the last argument of each
    constructor), a timestamp an optional scale and an optional timezone,
    a decimal its precision and scale, a struct its fields in order. *)
#[warnings="-register-all"]
Inductive DataType : Type :=
| Null (nullable : bool)
| Boolean (nullable : bool)
| Int8 (nullable : bool)
| Int16 (nullable : bool)
| Int32 (nullable : bool)
| Int64 (nullable : bool)
| UInt8 (nullable : bool)
| UInt16 (nullable : bool)
| UInt32 (nullable : bool)
| UInt64 (nullable : bool)
| Float32 (nullable : bool)
| Float64 (nullable : bool)
| String (nullable : bool)
| Binary (nullable : bool)
| Date (nullable : bool)
| Time (nullable : bool)
| INET (nullable : bool)
| JSON (nullable : bool)
| Timestamp (scale : option nat) (timezone : option string) (nullable : bool)
| Decimal (precision scale : nat) (nullable : bool)
| Array (value_type : DataType) (nullable : bool)
| Map (key_type value_type : DataType) (nullable : bool)
| Struct (fields : list (string * DataType)) (nullable : bool).

Definition nullable (t : DataType) : bool :=
  match t with
  | Null n | Boolean n | Int8 n | Int16 n | Int32 n | Int64 n
  | UInt8 n | UInt16 n | UInt32 n | UInt64 n | Float32 n | Float64 n
  | String n | Binary n | Date n | Time n | INET n | JSON n => n
  | Timestamp _ _ n => n
  | Decimal _ _ n => n
  | Array _ n => n
  | Map _ _ n => n
  | Struct _ n => n
  end.

(** [dtype(nullable=b)]: the same type with the flag of this node, and of
    this node only, replaced. *)
Definition copy (b : bool) (t : DataType) : DataType :=
  match t with
  | Null _ => Null b
  | Boolean _ => Boolean b
  | Int8 _ => Int8 b
  | Int16 _ => Int16 b
  | Int32 _ => Int32 b
  | Int64 _ => Int64 b
  | UInt8 _ => UInt8 b
  | UInt16 _ => UInt16 b
  | UInt32 _ => UInt32 b
  | UInt64 _ => UInt64 b
  | Float32 _ => Float32 b
  | Float64 _ => Float64 b
  | String _ => String b
  | Binary _ => Binary b
  | Date _ => Date b
  | Time _ => Time b
  | INET _ => INET b
  | JSON _ => JSON b
  | Timestamp s z _ => Timestamp s z b
  | Decimal p s _ => Decimal p s b
  | Array v _ => Array v b
  | Map k v _ => Map k v b
  | Struct fs _ => Struct fs b
  end.

(** The lower-case module constants.  They are the classes instantiated
    with no argument, so they carry the default flag [nullable=True]: the
    table of test_types.py writes [dt.string], [dt.uint64] and
    [dt.float64] exactly where the declaration says [Nullable(...)], and
    [dt.String(nullable=False)] and the like everywhere else. *)
Definition null : DataType := Null true.
Definition boolean : DataType := Boolean true.
Definition string : DataType := String true.
Definition uint64 : DataType := UInt64 true.
Definition float64 : DataType := Float64 true.
Definition inet : DataType := INET true.
Definition json : DataType := JSON true.

Definition is_Boolean (t : DataType) : bool :=
  match t with Boolean _ => true | _ => false end.

Definition is_Null (t : DataType) : bool :=
  match t with Null _ => true | _ => false end.

(** [Struct.from_dict(dict(...), nullable=...)]: the fields in the order
    the dict lists them. *)
Definition Struct_from_dict (fields : list (String.string * DataType))
           (nullable : bool) : DataType :=
  Struct fields nullable.

End dt.

(** ** Exceptions and results *)

(** Modelled from the spec: the shape of a value ([ibis.expr.datashape],
    not among the sources): constant, or varying per row. *)
Inductive DataShape : Type := Scalar | Columnar.

(** Modelled from the spec: an argument node ([Value] of core.py, not
    among the sources), by what a constructor reads of it: its [name], its
    [dtype] and its [shape]. *)
Record Value : Type := mkValue {
  name : string;
  dtype : dt.DataType;
  shape : DataShape
}.

(** The text of an exception.  [Text] is a message the source builds with
    an f-string; [Mismatch] stands for the report of the annotation
    machinery (not among the sources) on an argument that does not match
    its declared annotation: the parameter and the offending value. *)
Inductive Message : Type :=
| Text (msg : string)
| Mismatch (param : string) (actual : Value)
| Arity.

(** The two exception classes logical.py raises or imports:
    [ibis.common.exceptions.IbisTypeError] (the specification's
    [TypeUnificationError]) and [ibis.common.annotations.ValidationError]. *)
Inductive Exception : Type :=
| IbisTypeError (m : Message)
| ValidationError (m : Message).

Inductive result (A : Type) : Type :=
| Ok (a : A)
| Raise (e : Exception).

Arguments Ok {A} a.
Arguments Raise {A} e.

Definition bind {A B : Type} (r : result A) (k : A -> result B) : result B :=
  match r with
  | Ok a => k a
  | Raise e => Raise e
  end.

Notation "x <- r ;; k" := (bind r (fun x => k))
  (at level 61, r at next level, right associativity).
Notation "r ;;; k" := (bind r (fun _ => k))
  (at level 61, right associativity).

Definition is_Ok {A : Type} (r : result A) : bool :=
  match r with Ok _ => true | Raise _ => false end.

(** ** The rules of [ibis.expr.rules], imported as [rlz] *)

(** The three rules logical.py calls whose bodies are not among the
    sources.  The operation classes are defined, and their theorems proved,
    for every implementation of them; [SpecRules] below gives one. *)
Class Rules : Type := {
  comparable : Value -> Value -> bool;
  _arg_type_error_format : Value -> string;
  highest_precedence_dtype : list Value -> result dt.DataType
}.

Definition max_shape (a b : DataShape) : DataShape :=
  match a with
  | Columnar => Columnar
  | Scalar => b
  end.

(** Modelled from the spec: [rlz.highest_precedence_shape], whose body is
    not among the sources.  The result is columnar if any node's shape is
    columnar, else scalar: the greatest shape in the order
    [Scalar < Columnar]. *)
Definition highest_precedence_shape (nodes : list Value) : DataShape :=
  fold_right (fun node acc => max_shape (shape node) acc) Scalar nodes.

(** ** Operation nodes: [ibis.expr.operations.logical] *)

Module ops.

(** The concrete classes of logical.py. *)
Inductive Class : Type :=
| Not | And | Or | Xor
| Equals | NotEquals | GreaterEqual | Greater | LessEqual | Less | IdenticalTo
| Between | InValues | IfElse.

(** [class X(Comparison)] *)
Definition is_Comparison (cls : Class) : bool :=
  match cls with
  | Equals | NotEquals | GreaterEqual | Greater | LessEqual | Less
  | IdenticalTo => true
  | _ => false
  end.

End ops.

(** An argument as passed to a class: one node, or for a [VarTuple[Value]]
    parameter a tuple of nodes. *)
Inductive Arg : Type :=
| One (v : Value)
| Many (vs : list Value).

(** A constructed node: its class, its arguments in signature order
    ([self.args]) and its two attributes. *)
Record Node : Type := mkNode {
  node_class : ops.Class;
  args : list Arg;
  node_dtype : dt.DataType;
  node_shape : DataShape
}.

(** The nodes of [args], tuples spliced in place. *)
Definition promote_list (args : list Arg) : list Value :=
  flat_map (fun a => match a with One v => [v] | Many vs => vs end) args.

(** Modelled from the spec: [rlz.shape_like("args")], whose body is not
    among the sources: the broadcast of the shapes of all arguments of the
    node.  The classes that use it take single nodes only. *)
Definition shape_like (args : list Arg) : DataShape :=
  highest_precedence_shape (promote_list args).

(** The broadcast rule as a relation between the argument nodes and the
    shape of the result. *)
Definition broadcast (nodes : list Value) (s : DataShape) : Prop :=
  (Exists (fun v => shape v = Columnar) nodes -> s = Columnar) /\
  (Forall (fun v => shape v = Scalar) nodes -> s = Scalar).

Definition arity_error {A : Type} : result A :=
  Raise (ValidationError Arity).

Definition unary {A : Type} (args : list Arg) (k : Value -> result A)
  : result A :=
  match args with
  | [One arg] => k arg
  | _ => arity_error
  end.

Definition binary {A : Type} (args : list Arg)
           (k : Value -> Value -> result A) : result A :=
  match args with
  | [One l; One r] => k l r
  | _ => arity_error
  end.

Definition ternary {A : Type} (args : list Arg)
           (k : Value -> Value -> Value -> result A) : result A :=
  match args with
  | [One a; One b; One c] => k a b c
  | _ => arity_error
  end.

(** Modelled from the spec: the annotation [Value[dt.Boolean]] on a
    parameter, checked by [ibis.common.annotations] (not among the
    sources): the argument's dtype must be an instance of [dt.Boolean], and
    a violation raises a [ValidationError] naming the parameter and the
    offending value. *)
Definition Value_Boolean (param : string) (v : Value) : result unit :=
  if dt.is_Boolean (dtype v) then Ok tt
  else Raise (ValidationError (Mismatch param v)).

(** The annotated fields of each class, checked before [__init__] runs. *)
Definition signature (cls : ops.Class) (args : list Arg) : result unit :=
  match cls with
  | ops.Not =>
      unary args (fun arg => Value_Boolean "arg" arg)
  | ops.And | ops.Or | ops.Xor =>
      binary args (fun left right =>
        Value_Boolean "left" left ;;; Value_Boolean "right" right)
  | ops.Equals | ops.NotEquals | ops.GreaterEqual | ops.Greater
  | ops.LessEqual | ops.Less | ops.IdenticalTo =>
      binary args (fun _ _ => Ok tt)
  | ops.Between =>
      ternary args (fun _ _ _ => Ok tt)
  | ops.InValues =>
      match args with
      | [One value; Many options] => Ok tt
      | _ => arity_error
      end
  | ops.IfElse =>
      ternary args (fun bool_expr _ _ => Value_Boolean "bool_expr" bool_expr)
  end.

Section Operations.

Context {rlz : Rules}.

(** The f-string of [Comparison.__init__] and [Between.__init__]. *)
Definition not_comparable (a b : Value) : Message :=
  Text ("Arguments " ++ _arg_type_error_format a ++ " and "
        ++ _arg_type_error_format b ++ " are not comparable").

(** [Comparison.__init__], up to the call of [super().__init__]. *)
Definition Comparison__init__ (left right : Value) : result unit :=
  if negb (comparable left right) then
    Raise (IbisTypeError (not_comparable left right))
  else Ok tt.

(** [Between.__init__], up to the call of [super().__init__]. *)
Definition Between__init__ (arg lower_bound upper_bound : Value)
  : result unit :=
  if negb (comparable arg lower_bound) then
    Raise (ValidationError (not_comparable arg lower_bound))
  else if negb (comparable arg upper_bound) then
    Raise (ValidationError (not_comparable arg upper_bound))
  else Ok tt.

(** The [__init__] a class defines or inherits; the classes with none go
    straight to the base constructor. *)
Definition init (cls : ops.Class) (args : list Arg) : result unit :=
  if ops.is_Comparison cls then binary args Comparison__init__
  else match cls with
       | ops.Between => ternary args Between__init__
       | _ => Ok tt
       end.

(** The [dtype] of a class: the class constant [dt.boolean], or for
    [IfElse] the attribute computed from the two branches. *)
Definition dtype_attribute (cls : ops.Class) (args : list Arg)
  : result dt.DataType :=
  match cls with
  | ops.IfElse =>
      ternary args (fun _ true_expr false_null_expr =>
        highest_precedence_dtype [true_expr; false_null_expr])
  | _ => Ok dt.boolean
  end.

(** Modelled from the spec: the [shape] that [Unary] and [Binary]
    (core.py, not among the sources) give their subclasses: the broadcast
    of the arguments. *)
Definition inherited_shape (args : list Arg) : DataShape :=
  shape_like args.

(** The [shape] of a class.  [Between] and [IfElse] declare
    [rlz.shape_like("args")]; [InValues] computes
    [rlz.highest_precedence_shape] over [[self.value, *self.options]]; the
    other classes inherit theirs. *)
Definition shape_attribute (cls : ops.Class) (args : list Arg)
  : result DataShape :=
  match cls with
  | ops.Between | ops.IfElse => Ok (shape_like args)
  | ops.InValues =>
      match args with
      | [One value; Many options] =>
          Ok (highest_precedence_shape (value :: options))
      | _ => arity_error
      end
  | _ => Ok (inherited_shape args)
  end.

(** Modelled from the spec: the base constructor that every [__init__]
    ends in ([ibis.common.grounds.Annotable], with [attribute] of
    [ibis.common.annotations]), not among the sources.  As the
    specification states it, [dtype] and [shape] are resolved once, while
    the node is constructed; a failure of either raises and no node is
    produced. *)
Definition Annotable__init__ (cls : ops.Class) (args : list Arg)
  : result Node :=
  d <- dtype_attribute cls args ;;
  s <- shape_attribute cls args ;;
  Ok (mkNode cls args d s).

(** Modelled from the spec: calling a class (the metaclass of
    [Annotable], not among the sources): the arguments are checked against
    the annotated fields, then the class's [__init__] runs and ends in the
    base constructor; construction fails as a whole at the first stage
    that raises. *)
Definition create (cls : ops.Class) (args : list Arg) : result Node :=
  signature cls args ;;;
  init cls args ;;;
  Annotable__init__ cls args.

Definition Not (arg : Value) : result Node :=
  create ops.Not [One arg].

Definition And (left right : Value) : result Node :=
  create ops.And [One left; One right].

Definition Or (left right : Value) : result Node :=
  create ops.Or [One left; One right].

Definition Xor (left right : Value) : result Node :=
  create ops.Xor [One left; One right].

(** Any of the seven subclasses of [Comparison], called on two nodes. *)
Definition Comparison (cls : ops.Class) (left right : Value) : result Node :=
  create cls [One left; One right].

Definition Equals : Value -> Value -> result Node := Comparison ops.Equals.
Definition NotEquals : Value -> Value -> result Node :=
  Comparison ops.NotEquals.
Definition GreaterEqual : Value -> Value -> result Node :=
  Comparison ops.GreaterEqual.
Definition Greater : Value -> Value -> result Node := Comparison ops.Greater.
Definition LessEqual : Value -> Value -> result Node :=
  Comparison ops.LessEqual.
Definition Less : Value -> Value -> result Node := Comparison ops.Less.
Definition IdenticalTo : Value -> Value -> result Node :=
  Comparison ops.IdenticalTo.

Definition Between (arg lower_bound upper_bound : Value) : result Node :=
  create ops.Between [One arg; One lower_bound; One upper_bound].

Definition InValues (value : Value) (options : list Value) : result Node :=
  create ops.InValues [One value; Many options].

Definition IfElse (bool_expr true_expr false_null_expr : Value)
  : result Node :=
  create ops.IfElse [One bool_expr; One true_expr; One false_null_expr].

(** [self.options] of an [InValues] node. *)
Definition options (n : Node) : list Value :=
  match args n with
  | [One _; Many vs] => vs
  | _ => []
  end.

End Operations.

(** ** The type lattice, as the specification describes it *)

Inductive Category : Type :=
| Void | Logical | Numeric | Textual | Bytes | Temporal | Network | Document.

Definition Category_code (c : Category) : nat :=
  match c with
  | Void => 0 | Logical => 1 | Numeric => 2 | Textual => 3
  | Bytes => 4 | Temporal => 5 | Network => 6 | Document => 7
  end.

Definition Category_eqb (a b : Category) : bool :=
  Nat.eqb (Category_code a) (Category_code b).

(** The broad category of a scalar type; containers have none. *)
Definition category (t : dt.DataType) : option Category :=
  match t with
  | dt.Null _ => Some Void
  | dt.Boolean _ => Some Logical
  | dt.Int8 _ | dt.Int16 _ | dt.Int32 _ | dt.Int64 _
  | dt.UInt8 _ | dt.UInt16 _ | dt.UInt32 _ | dt.UInt64 _
  | dt.Float32 _ | dt.Float64 _ | dt.Decimal _ _ _ => Some Numeric
  | dt.String _ => Some Textual
  | dt.Binary _ => Some Bytes
  | dt.Date _ | dt.Time _ | dt.Timestamp _ _ _ => Some Temporal
  | dt.INET _ => Some Network
  | dt.JSON _ => Some Document
  | dt.Array _ _ | dt.Map _ _ _ | dt.Struct _ _ => None
  end.

(** Modelled from the spec: [areComparable], the test behind
    [rlz.comparable], whose body is not among the sources.  True iff both
    types are null, or both belong to the same broad category, or both are
    containers of the same shape whose components are comparable; a struct
    is never comparable with a scalar, nor an array with a map. *)
Fixpoint areComparable (a b : dt.DataType) {struct a} : bool :=
  match a, b with
  | dt.Array x _, dt.Array y _ => areComparable x y
  | dt.Map k v _, dt.Map k' v' _ => areComparable k k' && areComparable v v'
  | dt.Struct fs _, dt.Struct gs _ =>
      (fix fields (fs : list (string * dt.DataType))
           (gs : list (string * dt.DataType)) {struct fs} : bool :=
         match fs, gs with
         | [], [] => true
         | (n, t) :: fs', (m, u) :: gs' =>
             String.eqb n m && areComparable t u && fields fs' gs'
         | _, _ => false
         end) fs gs
  | _, _ =>
      match category a, category b with
      | Some c, Some d => Category_eqb c d
      | _, _ => false
      end
  end.

(** Modelled from the spec: [precedenceRank], not among the sources:
    unsigned then signed integers by increasing width, then the floating
    widths, then decimal, then string. *)
Definition precedenceRank (t : dt.DataType) : option nat :=
  match t with
  | dt.UInt8 _ => Some 1 | dt.UInt16 _ => Some 2
  | dt.UInt32 _ => Some 3 | dt.UInt64 _ => Some 4
  | dt.Int8 _ => Some 5 | dt.Int16 _ => Some 6
  | dt.Int32 _ => Some 7 | dt.Int64 _ => Some 8
  | dt.Float32 _ => Some 9 | dt.Float64 _ => Some 10
  | dt.Decimal _ _ _ => Some 11
  | dt.String _ => Some 12
  | _ => None
  end.

(** The lower-case name of the class of a type, for messages. *)
Definition class_name (t : dt.DataType) : string :=
  match t with
  | dt.Null _ => "null" | dt.Boolean _ => "boolean"
  | dt.Int8 _ => "int8" | dt.Int16 _ => "int16"
  | dt.Int32 _ => "int32" | dt.Int64 _ => "int64"
  | dt.UInt8 _ => "uint8" | dt.UInt16 _ => "uint16"
  | dt.UInt32 _ => "uint32" | dt.UInt64 _ => "uint64"
  | dt.Float32 _ => "float32" | dt.Float64 _ => "float64"
  | dt.String _ => "string" | dt.Binary _ => "binary"
  | dt.Date _ => "date" | dt.Time _ => "time"
  | dt.INET _ => "inet" | dt.JSON _ => "json"
  | dt.Timestamp _ _ _ => "timestamp" | dt.Decimal _ _ _ => "decimal"
  | dt.Array _ _ => "array" | dt.Map _ _ _ => "map"
  | dt.Struct _ _ => "struct"
  end.

(** The promotion of two types: null is the bottom and constrains nothing;
    two ranked scalars promote to the one of higher rank; otherwise the two
    must be of one family, and two incompatible families raise, reporting
    both types. *)
Definition higher_precedence (a b : dt.DataType) : result dt.DataType :=
  if dt.is_Null a then Ok b
  else if dt.is_Null b then Ok a
  else match precedenceRank a, precedenceRank b with
       | Some i, Some j => Ok (if Nat.ltb i j then b else a)
       | _, _ =>
           if areComparable a b then Ok a
           else Raise (IbisTypeError
                         (Text ("Cannot compute precedence for "
                                ++ class_name a ++ " and " ++ class_name b
                                ++ " types")))
       end.

(** Modelled from the spec: [highestPrecedenceType], not among the
    sources: the type all inputs promote to, or a failure when two of them
    belong to incompatible families. *)
Definition highestPrecedenceType (types : list dt.DataType)
  : result dt.DataType :=
  match types with
  | [] => Ok dt.null
  | t :: rest =>
      fold_left (fun acc u => a <- acc ;; higher_precedence a u) rest (Ok t)
  end.

(** The rules of the specification's lattice, as an implementation of
    [Rules]; the theorems below use it for concrete instances only. *)
Definition SpecRules : Rules := {|
  comparable := fun a b => areComparable (dtype a) (dtype b);
  _arg_type_error_format := fun v => name v ++ ":" ++ class_name (dtype v);
  highest_precedence_dtype := fun nodes =>
    highestPrecedenceType (map dtype nodes)
|}.

(** Sample nodes for the concrete instances. *)
Definition int_scalar : Value := mkValue "one" (dt.Int64 true) Scalar.
Definition int_column : Value := mkValue "n" (dt.Int64 true) Columnar.
Definition string_scalar : Value := mkValue "s" (dt.String true) Scalar.
Definition bool_column : Value := mkValue "flag" (dt.Boolean true) Columnar.
Definition struct_column : Value :=
  mkValue "rec" (dt.Struct [("a", dt.Int64 true)] true) Columnar.

(** ** The ClickHouse type grammar: [ibis.backends.clickhouse.datatypes.parse]

    The parser is not among the sources; test_types.py fixes its results on
    some fifty declarations.  It is modelled from the specification's
    grammar as a lexer and a recursive-descent parser over tokens. *)

Inductive token : Type :=
| IDENT (s : string)
| NUMBER (n : nat)
| QUOTED (s : string)
| LPAREN | RPAREN | COMMA | EQUAL.

Definition digit (c : ascii) : option nat :=
  let n := nat_of_ascii c in
  if ((48 <=? n) && (n <=? 57))%nat then Some (n - 48) else None.

Definition is_digit (c : ascii) : bool :=
  match digit c with
  | Some _ => true
  | None => false
  end.

Definition is_letter (c : ascii) : bool :=
  let n := nat_of_ascii c in
  (((65 <=? n) && (n <=? 90)) || ((97 <=? n) && (n <=? 122))
   || (n =? 95))%nat.

Definition is_space (c : ascii) : bool :=
  let n := nat_of_ascii c in
  ((n =? 32) || (n =? 9) || (n =? 10) || (n =? 13))%nat.

Definition snoc (s : string) (c : ascii) : string :=
  s ++ String c EmptyString.

(** The lexer is a state machine over the characters of the text. *)
Inductive lexer_state : Type :=
| Outside
| In_ident (acc : string)
| In_number (n : nat)
| In_quoted (acc : string).

(** The step from [Outside]: the tokens completed by [c], and the state
    after it. *)
Definition start (c : ascii) : option (list token * lexer_state) :=
  if is_space c then Some ([], Outside)
  else if Ascii.eqb c "(" then Some ([LPAREN], Outside)
  else if Ascii.eqb c ")" then Some ([RPAREN], Outside)
  else if Ascii.eqb c "," then Some ([COMMA], Outside)
  else if Ascii.eqb c "=" then Some ([EQUAL], Outside)
  else if Ascii.eqb c "'" then Some ([], In_quoted EmptyString)
  else match digit c with
       | Some d => Some ([], In_number d)
       | None =>
           if is_letter c then Some ([], In_ident (String c EmptyString))
           else None
       end.

Definition emit (t : token) (r : option (list token * lexer_state))
  : option (list token * lexer_state) :=
  match r with
  | Some (ts, st) => Some (t :: ts, st)
  | None => None
  end.

Definition step (st : lexer_state) (c : ascii)
  : option (list token * lexer_state) :=
  match st with
  | Outside => start c
  | In_quoted acc =>
      if Ascii.eqb c "'" then Some ([QUOTED acc], Outside)
      else Some ([], In_quoted (snoc acc c))
  | In_ident acc =>
      if is_letter c || is_digit c
      then Some ([], In_ident (snoc acc c))
      else emit (IDENT acc) (start c)
  | In_number n =>
      match digit c with
      | Some d => Some ([], In_number (10 * n + d))
      | None => emit (NUMBER n) (start c)
      end
  end.

Fixpoint tokenize (st : lexer_state) (text : string)
  : option (list token) :=
  match text with
  | EmptyString =>
      match st with
      | Outside => Some []
      | In_ident acc => Some [IDENT acc]
      | In_number n => Some [NUMBER n]
      | In_quoted _ => None
      end
  | String c rest =>
      match step st c with
      | Some (ts, st') =>
          match tokenize st' rest with
          | Some more => Some (ts ++ more)%list
          | None => None
          end
      | None => None
      end
  end.

(** The keywords that take parameters or wrap a type. *)
Inductive keyword : Type :=
| KNullable | KArray | KMap | KTuple | KNested | KLowCardinality
| KDateTime | KDateTime64 | KDecimal | KFixedString | KEnum | KObject
| KPlain.

Definition keyword_of (kw : string) : keyword :=
  if String.eqb kw "Nullable" then KNullable
  else if String.eqb kw "Array" then KArray
  else if String.eqb kw "Map" then KMap
  else if String.eqb kw "Tuple" then KTuple
  else if String.eqb kw "Nested" then KNested
  else if String.eqb kw "LowCardinality" then KLowCardinality
  else if String.eqb kw "DateTime" then KDateTime
  else if String.eqb kw "DateTime64" then KDateTime64
  else if String.eqb kw "Decimal" then KDecimal
  else if String.eqb kw "FixedString" then KFixedString
  else if String.eqb kw "Enum8" then KEnum
  else if String.eqb kw "Enum16" then KEnum
  else if String.eqb kw "Object" then KObject
  else KPlain.

(** The types written as a bare name.  Each is non-nullable, but for the
    void type: [Nothing] and [Null] give [dt.null], the constant the table
    expects inside [Array(Nothing)] and [Array(Null)]. *)
Definition plain_types : list (string * dt.DataType) :=
  [ ("Int8", dt.Int8 false); ("Int16", dt.Int16 false);
    ("Int32", dt.Int32 false); ("Int64", dt.Int64 false);
    ("UInt8", dt.UInt8 false); ("UInt16", dt.UInt16 false);
    ("UInt32", dt.UInt32 false); ("UInt64", dt.UInt64 false);
    ("Float32", dt.Float32 false); ("Float64", dt.Float64 false);
    ("String", dt.String false); ("Date", dt.Date false);
    ("IPv4", dt.copy false dt.inet); ("IPv6", dt.copy false dt.inet);
    ("JSON", dt.copy false dt.json);
    ("Nothing", dt.null); ("Null", dt.null) ].

Fixpoint lookup (kw : string) (table : list (string * dt.DataType))
  : option dt.DataType :=
  match table with
  | [] => None
  | (k, t) :: table' => if String.eqb kw k then Some t else lookup kw table'
  end.

(** The members of an enumeration, ['name' = number] separated by commas,
    up to and including the closing parenthesis; they are dropped. *)
Fixpoint enum_members (ts : list token) : option (list token) :=
  match ts with
  | QUOTED _ :: EQUAL :: NUMBER _ :: RPAREN :: rest => Some rest
  | QUOTED _ :: EQUAL :: NUMBER _ :: COMMA :: rest => enum_members rest
  | _ => None
  end.

Definition string_of_nat (n : nat) : string :=
  NilEmpty.string_of_uint (Nat.to_uint n).

(** The name of the field at position [i]: the declared one, or [f{i}]. *)
Definition field_name (i : nat) (declared : option string) : string :=
  match declared with
  | Some n => n
  | None => "f" ++ string_of_nat i
  end.

(** The fields of a tuple, numbered from [i]. *)
Fixpoint name_fields (i : nat) (fs : list (option string * dt.DataType))
  : list (string * dt.DataType) :=
  match fs with
  | [] => []
  | (declared, t) :: fs' => (field_name i declared, t) :: name_fields (S i) fs'
  end.

(** The fields of a nested declaration: every one is named, and its type
    becomes a non-nullable array of the declared type. *)
Fixpoint nested_fields (fs : list (option string * dt.DataType))
  : option (list (string * dt.DataType)) :=
  match fs with
  | [] => Some []
  | (Some n, t) :: fs' =>
      match nested_fields fs' with
      | Some rest => Some ((n, dt.Array t false) :: rest)
      | None => None
      end
  | (None, _) :: _ => None
  end.

Definition parsed (A : Type) : Type := option (A * list token).

(** [parse_type] reads one type off the front of the tokens;
    [parse_fields] reads the comma-separated fields of a tuple, each an
    optional name and a type.  Every call that recurses has consumed a
    token, so [fuel] above the number of tokens is never exhausted. *)
Fixpoint parse_type (fuel : nat) (ts : list token) {struct fuel}
  : parsed dt.DataType :=
  match fuel with
  | 0 => None
  | S fuel' =>
      match ts with
      | IDENT kw :: rest =>
          match keyword_of kw with
          | KNullable =>
              match rest with
              | LPAREN :: inner =>
                  match parse_type fuel' inner with
                  | Some (t, RPAREN :: rest') => Some (dt.copy true t, rest')
                  | _ => None
                  end
              | _ => None
              end
          | KArray =>
              match rest with
              | LPAREN :: inner =>
                  match parse_type fuel' inner with
                  | Some (t, RPAREN :: rest') => Some (dt.Array t false, rest')
                  | _ => None
                  end
              | _ => None
              end
          | KLowCardinality =>
              match rest with
              | LPAREN :: inner =>
                  match parse_type fuel' inner with
                  | Some (t, RPAREN :: rest') => Some (t, rest')
                  | _ => None
                  end
              | _ => None
              end
          | KMap =>
              match rest with
              | LPAREN :: inner =>
                  match parse_type fuel' inner with
                  | Some (k, COMMA :: inner') =>
                      match parse_type fuel' inner' with
                      | Some (v, RPAREN :: rest') =>
                          Some (dt.Map k v false, rest')
                      | _ => None
                      end
                  | _ => None
                  end
              | _ => None
              end
          | KTuple =>
              match rest with
              | LPAREN :: inner =>
                  match parse_fields fuel' inner with
                  | Some (fs, RPAREN :: rest') =>
                      Some (dt.Struct (name_fields 0 fs) false, rest')
                  | _ => None
                  end
              | _ => None
              end
          | KNested =>
              match rest with
              | LPAREN :: inner =>
                  match parse_fields fuel' inner with
                  | Some (fs, RPAREN :: rest') =>
                      match nested_fields fs with
                      | Some fields => Some (dt.Struct fields false, rest')
                      | None => None
                      end
                  | _ => None
                  end
              | _ => None
              end
          | KDateTime64 =>
              match rest with
              | LPAREN :: NUMBER scale :: RPAREN :: rest' =>
                  Some (dt.Timestamp (Some scale) None false, rest')
              | LPAREN :: NUMBER scale :: COMMA :: QUOTED tz :: RPAREN
                  :: rest' =>
                  Some (dt.Timestamp (Some scale) (Some tz) false, rest')
              | LPAREN :: _ => None
              | _ => Some (dt.Timestamp None None false, rest)
              end
          | KDateTime =>
              match rest with
              | LPAREN :: QUOTED tz :: RPAREN :: rest' =>
                  Some (dt.Timestamp None (Some tz) false, rest')
              | LPAREN :: _ => None
              | _ => Some (dt.Timestamp None None false, rest)
              end
          | KDecimal =>
              match rest with
              | LPAREN :: NUMBER precision :: COMMA :: NUMBER scale
                  :: RPAREN :: rest' =>
                  Some (dt.Decimal precision scale false, rest')
              | _ => None
              end
          | KFixedString =>
              match rest with
              | LPAREN :: NUMBER _ :: RPAREN :: rest' =>
                  Some (dt.String false, rest')
              | _ => None
              end
          | KEnum =>
              match rest with
              | LPAREN :: members =>
                  match enum_members members with
                  | Some rest' => Some (dt.String false, rest')
                  | None => None
                  end
              | _ => None
              end
          | KObject =>
              match rest with
              | LPAREN :: QUOTED kind :: RPAREN :: rest' =>
                  if String.eqb kind "json"
                  then Some (dt.copy false dt.json, rest')
                  else None
              | _ => None
              end
          | KPlain =>
              match lookup kw plain_types with
              | Some t => Some (t, rest)
              | None => None
              end
          end
      | _ => None
      end
  end

with parse_fields (fuel : nat) (ts : list token) {struct fuel}
  : parsed (list (option string * dt.DataType)) :=
  match fuel with
  | 0 => None
  | S fuel' =>
      let field :=
        match ts with
        | IDENT declared :: (IDENT _ :: _) as typ =>
            match parse_type fuel' typ with
            | Some (t, rest) => Some ((Some declared, t), rest)
            | None => None
            end
        | _ =>
            match parse_type fuel' ts with
            | Some (t, rest) => Some ((None, t), rest)
            | None => None
            end
        end in
      match field with
      | Some (f, COMMA :: rest) =>
          match parse_fields fuel' rest with
          | Some (fs, rest') => Some (f :: fs, rest')
          | None => None
          end
      | Some (f, rest) => Some ([f], rest)
      | None => None
      end
  end.

(** Modelled from the spec: [parse], not among the sources: the whole text
    is one type declaration; malformed or unknown text gives no type. *)
Definition parse (text : string) : option dt.DataType :=
  match tokenize Outside text with
  | Some ts =>
      match parse_type (S (length ts)) ts with
      | Some (t, []) => Some t
      | _ => None
      end
  | None => None
  end.

(** The declaration at the front of the tokens is wrapped in [Nullable],
    directly or under [LowCardinality], which stands for the type it
    encodes. *)
Fixpoint nullable_marked (ts : list token) : bool :=
  match ts with
  | IDENT kw :: LPAREN :: inner =>
      match keyword_of kw with
      | KNullable => true
      | KLowCardinality => nullable_marked inner
      | _ => false
      end
  | _ => false
  end.



(** *** The table of [test_parse_type] *)

Definition timezones : list string :=
  ["UTC"; "America/New_York"; "America/Chicago"; "America/Los_Angeles"].

(** [f"DateTime64({scale}, '{tz}')"] *)
Definition DateTime64_declaration (scale : nat) (tz : string) : string :=
  "DateTime64(" ++ string_of_nat scale ++ ", '" ++ tz ++ "')".

(** The generated cases: [for scale in range(10) for tz in (...)]. *)
Definition datetime64_cases : list (string * dt.DataType) :=
  flat_map
    (fun scale =>
       map (fun tz => (DateTime64_declaration scale tz,
                       dt.Timestamp (Some scale) (Some tz) false))
           timezones)
    (seq 0 10).

(** The parameters [(ch_type, ibis_type)] of [test_parse_type], in the
    order of the file. *)
Definition test_parse_type_cases : list (string * dt.DataType) :=
  [ ("Enum8('' = 0, 'CDMA' = 1, 'GSM' = 2, 'LTE' = 3, 'NR' = 4)",
     dt.String false);
    ("IPv4", dt.copy false dt.inet);
    ("IPv6", dt.copy false dt.inet);
    ("JSON", dt.copy false dt.json);
    ("Object('json')", dt.copy false dt.json);
    ("LowCardinality(String)", dt.String false);
    ("Array(Int8)", dt.Array (dt.Int8 false) false);
    ("Array(Int16)", dt.Array (dt.Int16 false) false);
    ("Array(Int32)", dt.Array (dt.Int32 false) false);
    ("Array(Int64)", dt.Array (dt.Int64 false) false);
    ("Array(UInt8)", dt.Array (dt.UInt8 false) false);
    ("Array(UInt16)", dt.Array (dt.UInt16 false) false);
    ("Array(UInt32)", dt.Array (dt.UInt32 false) false);
    ("Array(UInt64)", dt.Array (dt.UInt64 false) false);
    ("Array(Float32)", dt.Array (dt.Float32 false) false);
    ("Array(Float64)", dt.Array (dt.Float64 false) false);
    ("Array(String)", dt.Array (dt.String false) false);
    ("Array(FixedString(32))", dt.Array (dt.String false) false);
    ("Array(Date)", dt.Array (dt.Date false) false);
    ("Array(DateTime)", dt.Array (dt.Timestamp None None false) false);
    ("Array(DateTime64)", dt.Array (dt.Timestamp None None false) false);
    ("Array(Nothing)", dt.Array dt.null false);
    ("Array(Null)", dt.Array dt.null false);
    ("Array(Array(Int8))",
     dt.Array (dt.Array (dt.Int8 false) false) false);
    ("Array(Array(Array(Int8)))",
     dt.Array (dt.Array (dt.Array (dt.Int8 false) false) false) false);
    ("Array(Array(Array(Array(Int8))))",
     dt.Array
       (dt.Array (dt.Array (dt.Array (dt.Int8 false) false) false) false)
       false);
    ("Map(Nullable(String), Nullable(UInt64))",
     dt.Map dt.string dt.uint64 false);
    ("Decimal(10, 3)", dt.Decimal 10 3 false);
    ("Tuple(a String, b Array(Nullable(Float64)))",
     dt.Struct_from_dict
       [("a", dt.String false); ("b", dt.Array dt.float64 false)] false);
    ("Tuple(String, Array(Nullable(Float64)))",
     dt.Struct_from_dict
       [("f0", dt.String false); ("f1", dt.Array dt.float64 false)] false);
    ("Tuple(a String, Array(Nullable(Float64)))",
     dt.Struct_from_dict
       [("a", dt.String false); ("f1", dt.Array dt.float64 false)] false);
    ("Nested(a String, b Array(Nullable(Float64)))",
     dt.Struct_from_dict
       [("a", dt.Array (dt.String false) false);
        ("b", dt.Array (dt.Array dt.float64 false) false)] false);
    ("DateTime64(0)", dt.Timestamp (Some 0) None false);
    ("DateTime64(1)", dt.Timestamp (Some 1) None false);
    ("DateTime64", dt.Timestamp None None false) ]
  ++ datetime64_cases.

(** [assert parse(ch_type) == ibis_type] *)
Definition test_parse_type (ch_type : string) (ibis_type : dt.DataType)
  : Prop :=
  parse ch_type = Some ibis_type.



(** The lexer run over the beginning of a text: the tokens completed so
    far, and the state reached. *)
Fixpoint lex (st : lexer_state) (text : string)
  : option (list token * lexer_state) :=
  match text with
  | EmptyString => Some ([], st)
  | String c rest =>
      match step st c with
      | Some (ts, st') =>
          match lex st' rest with
          | Some (more, st'') => Some ((ts ++ more)%list, st'')
          | None => None
          end
      | None => None
      end
  end.

(** A text that can stand between quotes: the lexer knows no escape, so
    it holds no quote. *)
Fixpoint unquoted (s : string) : bool :=
  match s with
  | EmptyString => true
  | String c rest => negb (Ascii.eqb c "'") && unquoted rest
  end.

(** *** Declarations

    The declarations of the grammar as trees, the tokens each is written
    with, and the type the specification gives it: every node
    non-nullable, but for the node a [Nullable] wrapper stands on and for
    the void type. *)

Module declaration.

Inductive Declaration : Type :=
| Plain (name : string)
| FixedString (length : nat)
| Enum (wide : bool) (first : string * nat) (others : list (string * nat))
| Object_json
| Decimal (precision scale : nat)
| DateTime (tz : option string)
| DateTime64 (parameters : option (nat * option string))
| Nullable (inner : Declaration)
| LowCardinality (inner : Declaration)
| Array (element : Declaration)
| Map (key value : Declaration)
| Tuple (fields : Fields)
| Nested (fields : Fields)

with Fields : Type :=
| Last (name : option string) (type : Declaration)
| Then (name : option string) (type : Declaration) (more : Fields).

Scheme Declaration_Fields_ind := Induction for Declaration Sort Prop
  with Fields_Declaration_ind := Induction for Fields Sort Prop.

Combined Scheme Declaration_Fields_mutind
  from Declaration_Fields_ind, Fields_Declaration_ind.

Definition member_tokens (m : string * nat) : list token :=
  [QUOTED (fst m); EQUAL; NUMBER (snd m)].

Fixpoint members_tokens (first : string * nat) (others : list (string * nat))
  : list token :=
  match others with
  | [] => member_tokens first ++ [RPAREN]
  | m :: others' => member_tokens first ++ COMMA :: members_tokens m others'
  end.

Definition name_tokens (name : option string) : list token :=
  match name with
  | Some n => [IDENT n]
  | None => []
  end.

(** The tokens a declaration is written with. *)
Fixpoint tokens (d : Declaration) : list token :=
  match d with
  | Plain name => [IDENT name]
  | FixedString n => [IDENT "FixedString"; LPAREN; NUMBER n; RPAREN]
  | Enum wide first others =>
      IDENT (if wide then "Enum16" else "Enum8") :: LPAREN
      :: members_tokens first others
  | Object_json => [IDENT "Object"; LPAREN; QUOTED "json"; RPAREN]
  | Decimal precision scale =>
      [IDENT "Decimal"; LPAREN; NUMBER precision; COMMA; NUMBER scale; RPAREN]
  | DateTime None => [IDENT "DateTime"]
  | DateTime (Some tz) => [IDENT "DateTime"; LPAREN; QUOTED tz; RPAREN]
  | DateTime64 None => [IDENT "DateTime64"]
  | DateTime64 (Some (scale, None)) =>
      [IDENT "DateTime64"; LPAREN; NUMBER scale; RPAREN]
  | DateTime64 (Some (scale, Some tz)) =>
      [IDENT "DateTime64"; LPAREN; NUMBER scale; COMMA; QUOTED tz; RPAREN]
  | Nullable inner => IDENT "Nullable" :: LPAREN :: tokens inner ++ [RPAREN]
  | LowCardinality inner =>
      IDENT "LowCardinality" :: LPAREN :: tokens inner ++ [RPAREN]
  | Array element => IDENT "Array" :: LPAREN :: tokens element ++ [RPAREN]
  | Map key value =>
      IDENT "Map" :: LPAREN :: tokens key ++ COMMA :: tokens value ++ [RPAREN]
  | Tuple fields => IDENT "Tuple" :: LPAREN :: fields_tokens fields ++ [RPAREN]
  | Nested fields =>
      IDENT "Nested" :: LPAREN :: fields_tokens fields ++ [RPAREN]
  end

with fields_tokens (fs : Fields) : list token :=
  match fs with
  | Last name type => name_tokens name ++ tokens type
  | Then name type more =>
      name_tokens name ++ tokens type ++ COMMA :: fields_tokens more
  end.

Definition is_named (name : option string) : bool :=
  match name with
  | Some _ => true
  | None => false
  end.

Fixpoint all_named (fs : Fields) : bool :=
  match fs with
  | Last name _ => is_named name
  | Then name _ more => is_named name && all_named more
  end.

(** The declarations of the grammar: a plain name is one of the table, and
    every field of a nested declaration has a name. *)
Fixpoint well_formed (d : Declaration) : bool :=
  match d with
  | Plain name =>
      match lookup name plain_types with
      | Some _ => true
      | None => false
      end
  | Nullable inner | LowCardinality inner | Array inner => well_formed inner
  | Map key value => well_formed key && well_formed value
  | Tuple fields => fields_well_formed fields
  | Nested fields => all_named fields && fields_well_formed fields
  | _ => true
  end

with fields_well_formed (fs : Fields) : bool :=
  match fs with
  | Last _ type => well_formed type
  | Then _ type more => well_formed type && fields_well_formed more
  end.

(** The type of a declaration, in the specification's words: a
    [Nullable] wrapper gives the type it wraps with the flag set, at that
    node only; a low-cardinality encoding stands for the type it encodes;
    every other node is non-nullable, the void type apart, which is the
    constant [dt.null]; a tuple is the struct of its fields, an unnamed
    field at position [i] named [f{i}]; a nested declaration is the struct
    of the arrays of its fields. *)
Fixpoint type_of (d : Declaration) : dt.DataType :=
  match d with
  | Plain name =>
      match lookup name plain_types with
      | Some t => t
      | None => dt.null
      end
  | FixedString _ => dt.String false
  | Enum _ _ _ => dt.String false
  | Object_json => dt.copy false dt.json
  | Decimal precision scale => dt.Decimal precision scale false
  | DateTime tz => dt.Timestamp None tz false
  | DateTime64 None => dt.Timestamp None None false
  | DateTime64 (Some (scale, tz)) => dt.Timestamp (Some scale) tz false
  | Nullable inner => dt.copy true (type_of inner)
  | LowCardinality inner => type_of inner
  | Array element => dt.Array (type_of element) false
  | Map key value => dt.Map (type_of key) (type_of value) false
  | Tuple fields => dt.Struct (tuple_fields 0 fields) false
  | Nested fields => dt.Struct (nested_arrays fields) false
  end

with tuple_fields (i : nat) (fs : Fields) : list (string * dt.DataType) :=
  match fs with
  | Last name type => [(field_name i name, type_of type)]
  | Then name type more =>
      (field_name i name, type_of type) :: tuple_fields (S i) more
  end

with nested_arrays (fs : Fields) : list (string * dt.DataType) :=
  match fs with
  | Last name type => [(field_name 0 name, dt.Array (type_of type) false)]
  | Then name type more =>
      (field_name 0 name, dt.Array (type_of type) false) :: nested_arrays more
  end.

(** The fields as [parse_fields] returns them. *)
Fixpoint declared_fields (fs : Fields) : list (option string * dt.DataType) :=
  match fs with
  | Last name type => [(name, type_of type)]
  | Then name type more => (name, type_of type) :: declared_fields more
  end.

(** The declaration is wrapped in [Nullable]: directly, or under
    [LowCardinality], which stands for the type it encodes. *)
Fixpoint wrapped (d : Declaration) : bool :=
  match d with
  | Nullable _ => true
  | LowCardinality inner => wrapped inner
  | _ => false
  end.

End declaration.

(** What may follow a declaration: nothing, a comma or a closing
    parenthesis. *)
Definition delimited (rest : list token) : Prop :=
  match rest with
  | [] | COMMA :: _ | RPAREN :: _ => True
  | _ => False
  end.

(** ** Nodes as arguments *)

(** A constructed node passed on as an argument: the value [v] stands for
    the node [n] when it has the node's dtype and shape. *)
Definition stands_for (v : Value) (n : Node) : Prop :=
  dtype v = node_dtype n /\ shape v = node_shape n.

(** ** The DataFusion backend: [ibis/backends/datafusion/__init__.py] *)

Module datafusion.

(** [str.startswith] and [str.endswith], for one affix and for a tuple of
    them. *)
Definition startswith (s affix : string) : bool := String.prefix affix s.

Fixpoint endswith (s affix : string) : bool :=
  String.eqb s affix
  || match s with
     | EmptyString => false
     | String _ rest => endswith rest affix
     end.

Definition startswith_any (s : string) (affixes : list string) : bool :=
  existsb (startswith s) affixes.

Definition endswith_any (s : string) (affixes : list string) : bool :=
  existsb (endswith s) affixes.

(** The two tests of [register] on a path, written with concatenation:
    the path begins with one of the two prefixes or ends with one of the
    suffixes. *)
Definition looks_like_parquet (first : string) : Prop :=
  (exists r, first = "parquet://" ++ r) \/ (exists r, first = "parq://" ++ r)
  \/ (exists p, first = p ++ "parq") \/ (exists p, first = p ++ "parquet").

Definition looks_like_csv (first : string) : Prop :=
  (exists r, first = "csv://" ++ r) \/ (exists r, first = "txt://" ++ r)
  \/ (exists p, first = p ++ "csv") \/ (exists p, first = p ++ "tsv")
  \/ (exists p, first = p ++ "txt").

(** A [str | Path] argument. *)
Inductive PathLike : Type :=
| Str (s : string)
| Path (s : string).

(** [str(source)] *)
Definition str (p : PathLike) : string :=
  match p with
  | Str s => s
  | Path s => s
  end.

(** The exceptions the backend raises itself, and [Foreign_error] for one
    raised inside a collaborator. *)
Inductive Raised : Type :=
| ValueError (msg : string)
| KeyError (key : string)
| NotImplementedError
| Foreign_error (what : string).

Inductive Outcome (A : Type) : Type :=
| Returns (a : A)
| Raises (e : Raised).

Arguments Returns {A} a.
Arguments Raises {A} e.

(** What [getattr(self, key)] does with an attribute that [dir(self)]
    lists: it returns a value, raises [AttributeError] (and then
    [inspect.getmembers] keeps the key only when a class of the object has
    it in its dictionary), or raises another exception. *)
Inductive Attribute : Type :=
| readable
| unreadable (in_class_dict : bool)
| failing (e : Raised).

(** The objects of pyarrow, pandas, datafusion and sqlglot that the backend
    passes around without looking inside, and the functions of those
    libraries and of [ibis.util] that it applies to them. *)
Class Foreign : Type := {
  ArrowTable : Type;
  RecordBatch : Type;
  Dataset : Type;
  DataFrame : Type;
  Kwargs : Type;
  IbisTable : Type;
  Frame : Type;
  SqlNode : Type;
  PyFunc : Type;
  ArrowType : Type;
  PyArrowType_from_ibis : dt.DataType -> ArrowType;
  to_batches : ArrowTable -> list RecordBatch;
  from_pandas : DataFrame -> Outcome ArrowTable;
  normalize_filename : PathLike -> string
}.

Section Backend.

Context {foreign : Foreign}.

(** The sqlglot expressions the backend builds, one constructor per
    sqlglot call with the keyword arguments the source passes; [compiled]
    holds an expression a collaborator returned. *)
#[warnings="-register-all"]
Inductive Expression : Type :=
| compiled (e : SqlNode)
| to_identifier (name : string) (quoted : bool)
| table (name : string) (db : option string) (quoted : option bool)
| NotNullColumnConstraint
| ColumnConstraint (kind : Expression)
| ColumnDef (this kind : Expression) (constraints : option (list Expression))
| Schema (this : Expression) (expressions : list Expression)
| TemporaryProperty
| Properties (expressions : list Expression)
| Create (kind : string) (this : Expression) (replace : option bool)
         (properties : Expression) (expression : option Expression).

(** [df.udf(func, input_types=..., return_type=..., volatility=...,
    name=...)], by its arguments. *)
Record Udf : Type := {
  func : PyFunc;
  input_types : list ArrowType;
  return_type : ArrowType;
  volatility : string;
  udf_name : string
}.




(** A call the backend makes on a collaborator: the session [self.con],
    the methods it inherits, and [gen_name] of [ibis.util]. *)
Inductive Call : Type :=
| deregister_table (name : option string)
| register_record_batches (name : option string)
                          (partitions : list (list RecordBatch))
| register_dataset (name : option string) (dataset : Dataset)
| register_csv (name : string) (path : string) (kwargs : Kwargs)
| register_parquet (name : string) (path : string) (kwargs : Kwargs)
| con_sql (query : string)
| _log (query : string)
| self_table (name : option string) (schema : option string)
| drop_view (name : string)
| _run_pre_execute_hooks (t : IbisTable)
| gen_name (prefix : string)
| register_udf (udf : Udf).

(** The collaborators: whether a call raises, and what it returns, given
    the calls made before it; and the attributes of the backend object
    that [dir(self)] lists before and after [current_database], its own
    and those it inherits, in the order of [dir]. *)
Record World : Type := {
  raises : list Call -> Call -> option Raised;
  generated : list Call -> string -> string;
  found : list Call -> option string -> option string -> IbisTable;
  frame : list Call -> string -> Frame;
  earlier_members : list (string * Attribute);
  later_members : list (string * Attribute)
}.

(** [self.compiler], and the functions of sqlglot and ibis the backend
    applies to expressions. *)
Record Compiler : Type := {
  quoted : bool;
  from_ibis : dt.DataType -> Outcome Expression;
  from_string : string -> bool -> Outcome dt.DataType;
  parse_one : string -> Outcome Expression;
  _to_sqlglot : IbisTable -> Outcome Expression;
  memtable : DataFrame + ArrowTable -> IbisTable;
  sql : bool -> Expression -> string;
  to_pydict : Frame -> Outcome (list (string * list string))
}.

Context (world : World) (compiler : Compiler).

(** A method body: from the calls made so far to its outcome and the
    calls made when it ends. *)
Definition Action (A : Type) : Type := list Call -> Outcome A * list Call.

Definition ret {A : Type} (a : A) : Action A := fun h => (Returns a, h).

Definition raise {A : Type} (e : Raised) : Action A := fun h => (Raises e, h).

Definition andthen {A B : Type} (m : Action A) (k : A -> Action B)
  : Action B :=
  fun h =>
    match m h with
    | (Returns a, h') => k a h'
    | (Raises e, h') => (Raises e, h')
    end.

Notation "'let*' x ':=' m 'in' k" := (andthen m (fun x => k))
  (at level 10, x name, m at level 100, k at level 200).
Notation "m '>>' k" := (andthen m (fun _ => k))
  (at level 100, k at level 200, right associativity).

(** A pure computation that may raise. *)
Definition lift {A : Type} (o : Outcome A) : Action A := fun h => (o, h).

(** One call: recorded, then it raises or returns [value]. *)
Definition perform {A : Type} (c : Call) (value : list Call -> A)
  : Action A :=
  fun h =>
    match raises world h c with
    | Some e => (Raises e, h ++ [c])%list
    | None => (Returns (value h), h ++ [c])%list
    end.

Definition call (c : Call) : Action unit := perform c (fun _ => tt).

(** [try: body finally: cleanup] *)
Definition try_finally {A : Type} (body : Action A) (cleanup : Action unit)
  : Action A :=
  fun h =>
    match body h with
    | (out, h') =>
        match cleanup h' with
        | (Returns _, h'') => (out, h'')
        | (Raises e, h'') => (Raises e, h'')
        end
    end.

(** [self.table(name, schema=schema)] *)
Definition the_table (name schema : option string) : Action IbisTable :=
  perform (self_table name schema) (fun h => found world h name schema).

(** [table_name or gen_name(prefix)]: [None] and the empty string are
    falsy. *)
Definition or_gen_name (table_name : option string) (prefix : string)
  : Action string :=
  match table_name with
  | Some (String c rest) => ret (String c rest)
  | _ => perform (gen_name prefix) (fun h => generated world h prefix)
  end.

Definition read_csv (path : PathLike) (table_name : option string)
           (kwargs : Kwargs) : Action IbisTable :=
  let path := normalize_filename path in
  let* table_name := or_gen_name table_name "read_csv" in
  call (deregister_table (Some table_name)) >>
  call (register_csv table_name path kwargs) >>
  the_table (Some table_name) None.

Definition read_parquet (path : PathLike) (table_name : option string)
           (kwargs : Kwargs) : Action IbisTable :=
  let path := normalize_filename path in
  let* table_name := or_gen_name table_name "read_parquet" in
  call (deregister_table (Some table_name)) >>
  call (register_parquet table_name path kwargs) >>
  the_table (Some table_name) None.

(** The property [current_database]. *)
Definition current_database : Outcome string := Raises NotImplementedError.

(** Reading a property runs its body. *)
Definition property {A : Type} (body : Outcome A) : Attribute :=
  match body with
  | Returns _ => readable
  | Raises e => failing e
  end.

(** [dir(self)], with what reading each attribute does. *)
Definition dir_self : list (string * Attribute) :=
  (earlier_members world
   ++ ("current_database", property current_database)
   :: later_members world)%list.

(** [inspect.getmembers], by the keys of its result: the attributes are
    read in the order of [dir]; [AttributeError] is caught, any other
    exception ends the call. *)
Fixpoint getmembers (names : list (string * Attribute))
  : Outcome (list string) :=
  match names with
  | [] => Returns []
  | (key, attribute) :: names' =>
      match attribute with
      | failing e => Raises e
      | readable | unreadable true =>
          match getmembers names' with
          | Returns keys => Returns (key :: keys)
          | Raises e => Raises e
          end
      | unreadable false => getmembers names'
      end
  end.

Definition _register_failure {A : Type} : Action A :=
  let* members := lift (getmembers dir_self) in
  let msg :=
    String.concat ", " (filter (fun m => startswith m "read_") members) in
  raise (ValueError
           ("Cannot infer appropriate read function for input, "
            ++ "please call one of " ++ msg ++ " directly")).

(** The [source] argument of [register], by the [isinstance] tests. *)
Inductive Source : Type :=
| a_path (p : PathLike)
| a_Table (t : ArrowTable)
| a_RecordBatch (b : RecordBatch)
| a_Dataset (d : Dataset)
| a_DataFrame (df : DataFrame)
| another.

Definition is_parquet (first : string) : bool :=
  startswith_any first ["parquet://"; "parq://"]
  || endswith_any first ["parq"; "parquet"].

Definition is_csv (first : string) : bool :=
  startswith_any first ["csv://"; "txt://"]
  || endswith_any first ["csv"; "tsv"; "txt"].

(** The branch of [register] for a [pa.Table]. *)
Definition register_Table (source : ArrowTable) (table_name : option string)
  : Action IbisTable :=
  call (deregister_table table_name) >>
  call (register_record_batches table_name [to_batches source]) >>
  the_table table_name None.

(** [register].  The branch for a [pd.DataFrame] calls [register] again
    on [pa.Table.from_pandas(source)], which takes the [pa.Table] branch
    when the conversion has not raised. *)
Definition register (source : Source) (table_name : option string)
           (kwargs : Kwargs) : Action IbisTable :=
  match source with
  | a_path p =>
      let first := str p in
      if is_parquet first then read_parquet p table_name kwargs
      else if is_csv first then read_csv p table_name kwargs
      else _register_failure
  | a_Table t => register_Table t table_name
  | a_RecordBatch b =>
      call (deregister_table table_name) >>
      call (register_record_batches table_name [[b]]) >>
      the_table table_name None
  | a_Dataset d =>
      call (deregister_table table_name) >>
      call (register_dataset table_name d) >>
      the_table table_name None
  | a_DataFrame df =>
      let* t := lift (from_pandas df) in
      register_Table t table_name
  | another =>
      raise (ValueError "`source` must be either a string or a pathlib.Path")
  end.

(** [raw_sql]: an expression is rendered with [pretty=True]; a string has no
    [sql] method, the [AttributeError] is suppressed and it stays as it
    is. *)
Definition raw_sql (query : string + Expression) : Action Frame :=
  let query :=
    match query with
    | inl text => text
    | inr e => sql compiler true e
    end in
  call (_log query) >>
  perform (con_sql query) (fun h => frame world h query).

(** [result[key]] on the dict of a described view. *)
Fixpoint getitem (d : list (string * list string)) (key : string)
  : Outcome (list string) :=
  match d with
  | [] => Raises (KeyError key)
  | (k, v) :: d' => if String.eqb k key then Returns v else getitem d' key
  end.

(** [zip] of three lists. *)
Fixpoint zip3 {A B C : Type} (a : list A) (b : list B) (c : list C)
  : list (A * B * C) :=
  match a, b, c with
  | x :: a', y :: b', z :: c' => (x, y, z) :: zip3 a' b' c'
  | _, _, _ => []
  end.

(** [_metadata].  The generator it returns is the list of its items; the
    type of an item is computed when the item is reached, so it is an
    outcome of its own. *)
Definition _metadata (query : string)
  : Action (list (string * Outcome dt.DataType)) :=
  let* name := perform (gen_name "datafusion_metadata_view")
                       (fun h => generated world h
                                           "datafusion_metadata_view") in
  let table := table name None (Some (quoted compiler)) in
  let* expression := lift (parse_one compiler query) in
  let src := Create "VIEW" table None (Properties [TemporaryProperty])
                    (Some expression) in
  raw_sql (inr src) >>
  let* result :=
    try_finally
      (let* described := raw_sql (inl ("DESCRIBE " ++ sql compiler false table)) in
       lift (to_pydict compiler described))
      (call (drop_view name)) in
  let* column_name := lift (getitem result "column_name") in
  let* data_type := lift (getitem result "data_type") in
  let* is_nullable := lift (getitem result "is_nullable") in
  ret (map (fun item =>
              match item with
              | (name, type_string, is_nullable) =>
                  (name,
                   from_string compiler type_string
                               (String.eqb is_nullable "YES"))
              end)
           (zip3 column_name data_type is_nullable)).

(** The column definitions of [create_table], one per field of the
    schema; the first mapping that raises ends the comprehension. *)
Fixpoint column_defs (schema : list (string * dt.DataType))
  : Outcome (list Expression) :=
  match schema with
  | [] => Returns []
  | (name, typ) :: schema' =>
      match from_ibis compiler typ with
      | Raises e => Raises e
      | Returns kind =>
          match column_defs schema' with
          | Raises e => Raises e
          | Returns defs =>
              Returns
                (ColumnDef
                   (to_identifier name (quoted compiler)) kind
                   (if dt.nullable typ then None
                    else Some [ColumnConstraint NotNullColumnConstraint])
                 :: defs)
          end
      end
  end.

(** The [obj] argument of [create_table]: a table expression, or data for
    [ibis.memtable]. *)
Inductive Obj : Type :=
| an_Expr (t : IbisTable)
| data (d : DataFrame + ArrowTable).

Definition create_table (name : string) (obj : option Obj)
           (schema : option (list (string * dt.DataType)))
           (database : option string) (temp overwrite : bool)
  : Action IbisTable :=
  match obj, schema with
  | None, None => raise (ValueError "Either `obj` or `schema` must be specified")
  | _, _ =>
      let* column_defs :=
        lift (column_defs (match schema with Some s => s | None => [] end)) in
      let target := table name database (Some (quoted compiler)) in
      let target :=
        match column_defs with
        | [] => target
        | _ => Schema target column_defs
        end in
      let properties := if temp then [TemporaryProperty] else [] in
      let* query :=
        match obj with
        | Some obj =>
            let table :=
              match obj with
              | an_Expr t => t
              | data d => memtable compiler d
              end in
            call (_run_pre_execute_hooks table) >>
            let* q := lift (_to_sqlglot compiler table) in
            ret (Some q)
        | None => ret None
        end in
      let create_stmt :=
        Create "TABLE" target (Some overwrite) (Properties properties) query in
      raw_sql (inr create_stmt) >>
      the_table (Some name) database
  end.

(** [_register_in_memory_table], on the name of the table, its schema as
    pyarrow's and the batches of its data. *)
Definition _register_in_memory_table (name : string)
           (batches : list RecordBatch) (empty_dataset : Dataset)
  : Action unit :=
  call (deregister_table (Some name)) >>
  match batches with
  | _ :: _ => call (register_record_batches (Some name) [batches])
  | [] => call (register_dataset (Some name) empty_dataset)
  end.







(** The call registers a table under the name [n]. *)
Definition registers_under (c : Call) (n : option string) : Prop :=
  match c with
  | register_record_batches n' _ | register_dataset n' _ => n' = n
  | register_csv n' _ _ | register_parquet n' _ _ => Some n' = n
  | _ => False
  end.

(** The action makes no call. *)
Definition silent {A : Type} (m : Action A) : Prop :=
  forall h, snd (m h) = h.

(** The action only adds calls to those made before it. *)
Definition extends {A : Type} (m : Action A) : Prop :=
  forall h, exists l, snd (m h) = (h ++ l)%list.

End Backend.

(** *** A session for the concrete instances *)

(** Foreign objects as plain data: a table is its batches, a frame the
    query it answers, a table expression its name. *)
Definition sample_foreign : Foreign := {|
  ArrowTable := list nat;
  RecordBatch := nat;
  Dataset := nat;
  DataFrame := list nat;
  Kwargs := unit;
  IbisTable := string;
  Frame := string;
  SqlNode := string;
  PyFunc := string;
  ArrowType := string;
  PyArrowType_from_ibis := class_name;
  to_batches := fun t => t;
  from_pandas := fun d => Returns d;
  normalize_filename := str
|}.

(** A session in which no call raises. *)
Definition quiet_world : @World sample_foreign :=
  @Build_World sample_foreign
    (fun _ _ => None)
    (fun _ prefix => prefix ++ "_0")
    (fun _ name _ => match name with Some n => n | None => EmptyString end)
    (fun _ query => query)
    [("_log", readable); ("con", readable); ("create_table", readable)]
    [("read_csv", readable); ("read_parquet", readable);
     ("version", readable)].

(** A session in which executing a [DESCRIBE] raises. *)
Definition no_describe_world : @World sample_foreign :=
  @Build_World sample_foreign
    (fun _ c =>
       match c with
       | con_sql query =>
           if startswith query "DESCRIBE"
           then Some (Foreign_error "DESCRIBE failed")
           else None
       | _ => None
       end)
    (fun _ prefix => prefix ++ "_0")
    (fun _ name _ => match name with Some n => n | None => EmptyString end)
    (fun _ query => query)
    [("_log", readable); ("con", readable); ("create_table", readable)]
    [("read_csv", readable); ("read_parquet", readable);
     ("version", readable)].

Definition sample_sql (pretty : bool) (e : @Expression sample_foreign)
  : string :=
  match e with
  | compiled text => text
  | table name _ _ => name
  | Create kind (table name _ _) _ _ _ => "CREATE " ++ kind ++ " " ++ name
  | Create kind (Schema (table name _ _) _) _ _ _ =>
      "CREATE " ++ kind ++ " " ++ name ++ " (...)"
  | _ => "?"
  end.

Definition text_node (text : string) : @Expression sample_foreign :=
  @compiled sample_foreign text.

Definition sample_compiler : @Compiler sample_foreign :=
  @Build_Compiler sample_foreign
    true
    (fun t => Returns (text_node (class_name t)))
    (fun type_string nullable =>
       match parse type_string with
       | Some t => Returns (dt.copy nullable t)
       | None => Raises (Foreign_error type_string)
       end)
    (fun query => Returns (text_node query))
    (fun t => Returns (text_node t))
    (fun _ => "memtable")
    sample_sql
    (fun _ =>
       Returns [("column_name", ["a"; "b"; "c"]);
                ("data_type", ["Int64"; "String"; "Float64"]);
                ("is_nullable", ["YES"; "NO"])]).

End datafusion.

(** * Theorems *)

(** ** Construction of operation nodes *)

Section OperationFacts.

Context {rlz : Rules}.

(** What a call returns, stage by stage: a node exists only when every
    stage succeeded, and then it holds exactly the results of the two
    attribute computations; otherwise the exception is that of the first
    stage that raised. *)
Lemma create_stages (cls : ops.Class) (a : list Arg) :
  match create cls a with
  | Ok n =>
      signature cls a = Ok tt /\ init cls a = Ok tt /\
      dtype_attribute cls a = Ok (node_dtype n) /\
      shape_attribute cls a = Ok (node_shape n) /\
      node_class n = cls /\ args n = a
  | Raise e =>
      signature cls a = Raise e \/
      (signature cls a = Ok tt /\ init cls a = Raise e) \/
      (signature cls a = Ok tt /\ init cls a = Ok tt /\
       dtype_attribute cls a = Raise e) \/
      (signature cls a = Ok tt /\ init cls a = Ok tt /\
       is_Ok (dtype_attribute cls a) = true /\
       shape_attribute cls a = Raise e)
  end.
Proof.
  unfold create, Annotable__init__.
  destruct (signature cls a) as [[] | e1]; simpl; [ | now left].
  destruct (init cls a) as [[] | e2]; simpl; [ | now right; left].
  destruct (dtype_attribute cls a) as [d | e3]; simpl;
    [ | now right; right; left].
  destruct (shape_attribute cls a) as [s | e4]; simpl.
  - repeat split.
  - right; right; right. repeat split.
Qed.

Lemma Comparison_stages (cls : ops.Class) (left right : Value) :
  ops.is_Comparison cls = true ->
  signature cls [One left; One right] = Ok tt /\
  init cls [One left; One right] = Comparison__init__ left right /\
  dtype_attribute cls [One left; One right] = Ok dt.boolean /\
  shape_attribute cls [One left; One right]
  = Ok (highest_precedence_shape [left; right]).
Proof.
  intros Hcls. unfold init. rewrite Hcls.
  destruct cls; try discriminate Hcls; repeat split.
Qed.

(** C1, amended.  For each of the seven subclasses of [Comparison] and all
    nodes [left] and [right]: the call succeeds if and only if
    [rlz.comparable(left, right)] holds; the node then holds the two
    arguments and its dtype is the constant [dt.boolean], whose nullable
    flag is true; otherwise the call raises [IbisTypeError] (the
    specification's TypeUnificationError) whose message is built from
    [_arg_type_error_format] of both arguments. *)
Theorem Comparison_succeeds_iff_comparable
        (cls : ops.Class) (left right : Value) :
  ops.is_Comparison cls = true ->
  (comparable left right = true <->
   exists n, Comparison cls left right = Ok n) /\
  (forall n, Comparison cls left right = Ok n ->
             node_class n = cls /\ args n = [One left; One right] /\
             node_dtype n = dt.boolean /\
             dt.nullable (node_dtype n) = true) /\
  (comparable left right = false ->
   Comparison cls left right
   = Raise (IbisTypeError
              (Text ("Arguments " ++ _arg_type_error_format left ++ " and "
                     ++ _arg_type_error_format right
                     ++ " are not comparable")))).
Proof.
  intros Hcls.
  destruct (Comparison_stages cls left right Hcls) as (Hsig & Hinit & Hd & Hs).
  unfold Comparison, create, Annotable__init__.
  rewrite Hsig, Hinit, Hd, Hs.
  unfold Comparison__init__, not_comparable.
  destruct (comparable left right); simpl.
  - split; [ | split].
    + split; [intros _; eexists; reflexivity | intros _; reflexivity].
    + intros n Hn. injection Hn as <-. simpl. repeat split.
    + discriminate.
  - split; [ | split].
    + split; [discriminate | intros [n Hn]; discriminate Hn].
    + intros n Hn. discriminate Hn.
    + reflexivity.
Qed.

(** C2, amended.  [Between(arg, lower_bound, upper_bound)] tests
    [comparable(arg, lower_bound)] and then [comparable(arg, upper_bound)].
    It succeeds exactly when both hold, with dtype [dt.boolean]; when one
    fails it raises [ValidationError], not [IbisTypeError], and the message
    names [arg] and the first bound that is not comparable with it. *)
Theorem Between_checks_both_bounds (arg lower_bound upper_bound : Value) :
  match Between arg lower_bound upper_bound with
  | Ok n =>
      comparable arg lower_bound = true /\
      comparable arg upper_bound = true /\
      args n = [One arg; One lower_bound; One upper_bound] /\
      node_dtype n = dt.boolean
  | Raise e =>
      (comparable arg lower_bound = false /\
       e = ValidationError
             (Text ("Arguments " ++ _arg_type_error_format arg ++ " and "
                    ++ _arg_type_error_format lower_bound
                    ++ " are not comparable"))) \/
      (comparable arg lower_bound = true /\
       comparable arg upper_bound = false /\
       e = ValidationError
             (Text ("Arguments " ++ _arg_type_error_format arg ++ " and "
                    ++ _arg_type_error_format upper_bound
                    ++ " are not comparable")))
  end.
Proof.
  unfold Between, create, Annotable__init__, init; simpl.
  unfold Between__init__, not_comparable.
  destruct (comparable arg lower_bound); simpl.
  - destruct (comparable arg upper_bound); simpl.
    + repeat split.
    + right. repeat split.
  - left. repeat split.
Qed.

(** C9, amended.  [InValues(value, options)] succeeds for every tuple of
    options, the empty one included; the node holds the options as given
    and its dtype is the constant [dt.boolean] whatever the dtypes of the
    value and of the options. *)
Theorem InValues_accepts_any_options (value : Value) (opts : list Value) :
  exists n, InValues value opts = Ok n /\
            options n = opts /\
            node_dtype n = dt.boolean.
Proof.
  eexists. unfold InValues, create, Annotable__init__; simpl. repeat split.
Qed.

(** C10.  [Not(arg)] succeeds exactly when the dtype of [arg] is an
    instance of [dt.Boolean], and its dtype is then the constant
    [dt.boolean]; on any other argument the call fails validation. *)
Theorem Not_requires_boolean (arg : Value) :
  (dt.is_Boolean (dtype arg) = true ->
   exists n, Not arg = Ok n /\ args n = [One arg] /\
             node_dtype n = dt.boolean) /\
  (dt.is_Boolean (dtype arg) = false ->
   Not arg = Raise (ValidationError (Mismatch "arg" arg))).
Proof.
  unfold Not, create, Annotable__init__; simpl. unfold Value_Boolean.
  destruct (dt.is_Boolean (dtype arg)); simpl; split;
    try discriminate; intros _.
  - eexists. repeat split.
  - reflexivity.
Qed.

End OperationFacts.

(** ** Shapes and attributes *)

Lemma highest_precedence_shape_Columnar (nodes : list Value) :
  Exists (fun v => shape v = Columnar) nodes ->
  highest_precedence_shape nodes = Columnar.
Proof.
  induction 1 as [v rest Hv | v rest _ IH];
    change (max_shape (shape v) (highest_precedence_shape rest) = Columnar).
  - rewrite Hv. reflexivity.
  - rewrite IH. destruct (shape v); reflexivity.
Qed.

Lemma highest_precedence_shape_Scalar (nodes : list Value) :
  Forall (fun v => shape v = Scalar) nodes ->
  highest_precedence_shape nodes = Scalar.
Proof.
  induction 1 as [ | v rest Hv _ IH].
  - reflexivity.
  - change (max_shape (shape v) (highest_precedence_shape rest) = Scalar).
    rewrite Hv. exact IH.
Qed.

Lemma highest_precedence_shape_broadcast (nodes : list Value) :
  broadcast nodes (highest_precedence_shape nodes).
Proof.
  split.
  - apply highest_precedence_shape_Columnar.
  - apply highest_precedence_shape_Scalar.
Qed.

Section AttributeFacts.

Context {rlz : Rules}.

(** C4.  The shape of a [Between], [InValues] or [IfElse] node is the
    broadcast of its arguments, for [InValues] of the value together with
    every option: columnar if one of them is columnar, scalar if all of
    them are scalar. *)
Theorem shape_is_broadcast_of_arguments :
  (forall arg lower_bound upper_bound n,
      Between arg lower_bound upper_bound = Ok n ->
      broadcast [arg; lower_bound; upper_bound] (node_shape n)) /\
  (forall value opts n,
      InValues value opts = Ok n ->
      broadcast (value :: opts) (node_shape n)) /\
  (forall bool_expr true_expr false_null_expr n,
      IfElse bool_expr true_expr false_null_expr = Ok n ->
      broadcast [bool_expr; true_expr; false_null_expr] (node_shape n)).
Proof.
  split; [ | split].
  - intros a l u n Hn.
    pose proof (create_stages ops.Between [One a; One l; One u]) as H.
    unfold Between in Hn. rewrite Hn in H.
    destruct H as (_ & _ & _ & Hs & _). simpl in Hs.
    injection Hs as <-. apply highest_precedence_shape_broadcast.
  - intros v os n Hn.
    pose proof (create_stages ops.InValues [One v; Many os]) as H.
    unfold InValues in Hn. rewrite Hn in H.
    destruct H as (_ & _ & _ & Hs & _). simpl in Hs.
    injection Hs as <-. apply highest_precedence_shape_broadcast.
  - intros c t f n Hn.
    pose proof (create_stages ops.IfElse [One c; One t; One f]) as H.
    unfold IfElse in Hn. rewrite Hn in H.
    destruct H as (_ & _ & _ & Hs & _). simpl in Hs.
    injection Hs as <-. apply highest_precedence_shape_broadcast.
Qed.

End AttributeFacts.

(** ** Concrete instances, under the rules of the specification's lattice *)

Lemma Comparison_succeeds_iff_comparable_witness :
  (comparable (Rules := SpecRules) int_column int_scalar = true <->
   exists n, Comparison (rlz := SpecRules) ops.Less int_column int_scalar
             = Ok n) /\
  (forall n,
      Comparison (rlz := SpecRules) ops.Less int_column int_scalar = Ok n ->
      node_class n = ops.Less /\
      args n = [One int_column; One int_scalar] /\
      node_dtype n = dt.boolean /\
      dt.nullable (node_dtype n) = true) /\
  (comparable (Rules := SpecRules) int_column int_scalar = false ->
   Comparison (rlz := SpecRules) ops.Less int_column int_scalar
   = Raise (IbisTypeError
              (Text ("Arguments "
                     ++ _arg_type_error_format (Rules := SpecRules) int_column
                     ++ " and "
                     ++ _arg_type_error_format (Rules := SpecRules) int_scalar
                     ++ " are not comparable")))).
Proof.
  apply (Comparison_succeeds_iff_comparable
           (rlz := SpecRules) ops.Less int_column int_scalar).
  reflexivity.
Defined.

(** The claim of C1 fails on the flag: a comparison of two integers
    succeeds, and its dtype is the nullable boolean. *)
Lemma Equals_dtype_is_nullable :
  exists n,
    Equals (rlz := SpecRules) int_column int_scalar = Ok n /\
    node_dtype n = dt.Boolean true /\
    dt.nullable (node_dtype n) <> false.
Proof.
  eexists. split; [reflexivity | ]. simpl. split; [reflexivity | discriminate].
Qed.

(** A comparison of a struct with a string raises [IbisTypeError]. *)
Lemma Equals_struct_string_raises :
  Equals (rlz := SpecRules) struct_column string_scalar
  = Raise (IbisTypeError
             (Text "Arguments rec:struct and s:string are not comparable")).
Proof. reflexivity. Qed.

(** The claim of C2 fails on the exception class: with a struct against
    string bounds, [Between] raises [ValidationError], and so no
    [IbisTypeError]. *)
Lemma Between_raises_ValidationError :
  Between (rlz := SpecRules) struct_column string_scalar string_scalar
  = Raise (ValidationError
             (Text "Arguments rec:struct and s:string are not comparable"))
  /\
  (forall m,
      Between (rlz := SpecRules) struct_column string_scalar string_scalar
      <> Raise (IbisTypeError m)).
Proof.
  split; [reflexivity | ]. intros m H. discriminate H.
Qed.

(** The claim of C9 fails on the empty tuple: [InValues] with no option
    returns a node. *)
Lemma InValues_without_options :
  exists n,
    InValues (rlz := SpecRules) int_column [] = Ok n /\
    options n = [] /\
    node_shape n = Columnar.
Proof.
  eexists. split; [reflexivity | ]. split; reflexivity.
Qed.

Lemma Not_requires_boolean_witness :
  (exists n, Not (rlz := SpecRules) bool_column = Ok n /\
             args n = [One bool_column] /\ node_dtype n = dt.boolean) /\
  Not (rlz := SpecRules) int_column
  = Raise (ValidationError (Mismatch "arg" int_column)).
Proof.
  split.
  - apply (proj1 (Not_requires_boolean (rlz := SpecRules) bool_column)).
    reflexivity.
  - apply (proj2 (Not_requires_boolean (rlz := SpecRules) int_column)).
    reflexivity.
Defined.

Lemma shape_is_broadcast_of_arguments_witness :
  (exists n,
      Between (rlz := SpecRules) int_column int_scalar int_scalar = Ok n /\
      node_shape n = Columnar) /\
  (exists n,
      InValues (rlz := SpecRules) int_scalar [int_scalar; int_scalar] = Ok n /\
      node_shape n = Scalar).
Proof.
  split.
  - eexists. split; [reflexivity | ].
    apply (proj1 (shape_is_broadcast_of_arguments (rlz := SpecRules))
                 int_column int_scalar int_scalar _ eq_refl).
    apply Exists_cons_hd. reflexivity.
  - eexists. split; [reflexivity | ].
    apply (proj1 (proj2 (shape_is_broadcast_of_arguments (rlz := SpecRules)))
                 int_scalar [int_scalar; int_scalar] _ eq_refl).
    repeat constructor.
Defined.

(** ** The parser *)

(** The modelled parser passes every case of the table. *)
Lemma test_parse_type_passes :
  Forall (fun c => test_parse_type (fst c) (snd c)) test_parse_type_cases.
Proof.
  unfold test_parse_type_cases, datetime64_cases.
  repeat (apply Forall_cons; [vm_compute; reflexivity | ]).
  apply Forall_nil.
Qed.







Lemma nullable_copy (b : bool) (t : dt.DataType) :
  dt.nullable (dt.copy b t) = b.
Proof. destruct t; reflexivity. Qed.

(** Case analysis along the matches of a parser equation. *)
Ltac parse_cases :=
  repeat match goal with
         | H : None = Some _ |- _ => discriminate H
         | H : Some _ = Some _ |- _ => injection H; clear H; intros; subst
         | H : context [match ?x with _ => _ end] |- _ =>
             destruct x eqn:?
         end.

Ltac by_induction_hypotheses fuel IHt IHf :=
  repeat match goal with
         | E : parse_type fuel _ = Some _ |- _ => apply IHt in E
         | E : parse_fields fuel _ = Some _ |- _ => apply IHf in E
         end.

Lemma parse_type_nullable (fuel : nat) :
  forall ts t rest,
    parse_type fuel ts = Some (t, rest) ->
    dt.nullable t = nullable_marked ts || dt.is_Null t.
Proof.
  induction fuel as [ | fuel IH]; intros ts t rest H; [discriminate H | ].
  destruct ts as [ | [kw | | | | | | ] ts']; try discriminate H.
  simpl in H.
  destruct (keyword_of kw) eqn:K.
  all: parse_cases; simpl; rewrite ?K; try reflexivity.
  all: try apply nullable_copy.
  all: try (eapply IH; eassumption).
  all: match goal with
       | |- context [match ?l with _ => _ end] => destruct l as [ | [] ?]
       end; reflexivity.
Qed.

(** *** Fuel *)

Lemma enum_members_consumes (ts : list token) :
  forall rest, enum_members ts = Some rest -> length rest < length ts.
Proof.
  induction ts as [ts IH]
    using (well_founded_induction
             (Wf_nat.well_founded_ltof _ (@length token))).
  intros rest H.
  destruct ts as [ | [] [ | [] [ | [] [ | [] ts']]]]; try discriminate H;
    simpl in H.
  - injection H as <-. simpl. lia.
  - apply IH in H; [simpl; lia | unfold Wf_nat.ltof; simpl; lia].
Qed.

(** Every successful call consumes at least one token. *)
Lemma parse_consumes (fuel : nat) :
  (forall ts t rest,
      parse_type fuel ts = Some (t, rest) -> length rest < length ts) /\
  (forall ts fs rest,
      parse_fields fuel ts = Some (fs, rest) -> length rest < length ts).
Proof.
  induction fuel as [ | fuel [IHt IHf]]; split; intros ts x rest H;
    try discriminate H.
  - destruct ts as [ | [kw | | | | | | ] ts']; try discriminate H.
    simpl in H.
    destruct (keyword_of kw) eqn:K; parse_cases;
      by_induction_hypotheses fuel IHt IHf;
      repeat match goal with
             | E : enum_members _ = Some _ |- _ =>
                 apply enum_members_consumes in E
             end;
      simpl in *; lia.
  - simpl in H. parse_cases; by_induction_hypotheses fuel IHt IHf;
      simpl in *; lia.
Qed.

(** Past the number of tokens, more fuel changes nothing. *)
Lemma parse_fuel_independent (fuel : nat) :
  forall fuel',
    (forall ts,
        length ts < fuel -> length ts < fuel' ->
        parse_type fuel ts = parse_type fuel' ts) /\
    (forall ts,
        S (length ts) < fuel -> S (length ts) < fuel' ->
        parse_fields fuel ts = parse_fields fuel' ts).
Proof.
  induction fuel as [ | fuel IH]; intros fuel'; split; intros ts Hf Hf';
    try lia.
  - destruct fuel' as [ | fuel']; [lia | ].
    destruct (IH fuel') as [IHt IHf].
    destruct ts as [ | [kw | | | | | | ] rest]; try reflexivity.
    simpl. destruct (keyword_of kw); try reflexivity.
    all: destruct rest as [ | [] inner]; try reflexivity.
    all: simpl in Hf, Hf'.
    all: try (rewrite (IHt inner) by lia; try reflexivity).
    all: try (rewrite (IHf inner) by lia; reflexivity).
    destruct (parse_type fuel' inner) as [[k [ | [] inner']] | ] eqn:E;
      try reflexivity.
    apply (proj1 (parse_consumes fuel')) in E. simpl in E.
    rewrite (IHt inner') by lia. reflexivity.
  - destruct fuel' as [ | fuel']; [lia | ].
    destruct (IH fuel') as [IHt IHf].
    simpl.
    assert (Hrest : forall f rest,
               length rest < length ts ->
               match rest with
               | COMMA :: rest' =>
                   match parse_fields fuel rest' with
                   | Some (fs, rest'') => Some (f :: fs, rest'')
                   | None => None
                   end
               | _ => Some ([f], rest)
               end
               = match rest with
                 | COMMA :: rest' =>
                     match parse_fields fuel' rest' with
                     | Some (fs, rest'') => Some (f :: fs, rest'')
                     | None => None
                     end
                 | _ => Some ([f], rest)
                 end).
    { intros f [ | [] rest'] Hlen; try reflexivity.
      simpl in Hlen. rewrite (IHf rest') by lia. reflexivity. }
    destruct ts as [ | [declared | | | | | | ] [ | [kw | | | | | | ] ts']];
      simpl in Hf, Hf';
      rewrite (IHt _) by (simpl; lia);
      match goal with
      | |- context [parse_type fuel' ?x] =>
          destruct (parse_type fuel' x) as [[t rest] | ] eqn:E;
          [apply (proj1 (parse_consumes fuel')) in E; simpl in E;
           apply Hrest; simpl; lia
          | reflexivity]
      end.
Qed.

(** A result found with some fuel is found with any larger amount. *)
Lemma parse_fuel_monotone (fuel : nat) :
  forall fuel',
    fuel <= fuel' ->
    (forall ts r, parse_type fuel ts = Some r -> parse_type fuel' ts = Some r)
    /\
    (forall ts r,
        parse_fields fuel ts = Some r -> parse_fields fuel' ts = Some r).
Proof.
  induction fuel as [ | fuel IH]; intros fuel' Hle; split; intros ts r H;
    try discriminate H.
  - destruct fuel' as [ | fuel']; [lia | ].
    destruct (IH fuel' ltac:(lia)) as [IHt IHf].
    destruct ts as [ | [kw | | | | | | ] ts']; try discriminate H.
    simpl in H |- *.
    destruct (keyword_of kw) eqn:K; parse_cases;
      by_induction_hypotheses fuel IHt IHf;
      repeat match goal with
             | E : ?l = Some _ |- context [?l] => rewrite E
             end;
      reflexivity.
  - destruct fuel' as [ | fuel']; [lia | ].
    destruct (IH fuel' ltac:(lia)) as [IHt IHf].
    simpl in H |- *.
    parse_cases; by_induction_hypotheses fuel IHt IHf;
      repeat match goal with
             | E : ?l = Some _ |- context [?l] => rewrite E
             end;
      reflexivity.
Qed.

(** The fuel [parse] gives is enough: whatever some amount of fuel finds
    for the whole token list, [parse] returns; no declaration is rejected
    for its depth. *)
Lemma parse_of_tokens (text : string) (ts : list token) (fuel : nat)
      (t : dt.DataType) :
  tokenize Outside text = Some ts ->
  parse_type fuel ts = Some (t, []) ->
  parse text = Some t.
Proof.
  intros Hts H. unfold parse. rewrite Hts.
  apply (proj1 (parse_fuel_monotone fuel (fuel + S (length ts))
                                    ltac:(lia))) in H.
  rewrite (proj1 (parse_fuel_independent
                    (S (length ts)) (fuel + S (length ts))))
    by lia.
  rewrite H. reflexivity.
Qed.

Lemma parse_tokens (text : string) (t : dt.DataType) :
  parse text = Some t ->
  exists ts, tokenize Outside text = Some ts /\
             parse_type (S (length ts)) ts = Some (t, []).
Proof.
  unfold parse. intros H.
  destruct (tokenize Outside text) as [ts | ]; [ | discriminate H].
  exists ts. split; [reflexivity | ].
  destruct (parse_type (S (length ts)) ts) as [[t' [ | ? ?]] | ];
    try discriminate H.
  injection H as ->. reflexivity.
Qed.

(** *** The lexer *)

Lemma append_assoc (a b c : string) : (a ++ b) ++ c = a ++ (b ++ c).
Proof.
  induction a as [ | x a IH]; simpl; [reflexivity | rewrite IH; reflexivity].
Qed.

Lemma append_empty (a : string) : a ++ EmptyString = a.
Proof.
  induction a as [ | x a IH]; simpl; [reflexivity | rewrite IH; reflexivity].
Qed.

(** The lexer reads a text piece by piece. *)
Lemma tokenize_app (prefix : string) :
  forall st rest,
    tokenize st (prefix ++ rest)
    = match lex st prefix with
      | Some (ts, st') =>
          match tokenize st' rest with
          | Some more => Some (ts ++ more)%list
          | None => None
          end
      | None => None
      end.
Proof.
  induction prefix as [ | c prefix IH]; intros st rest; simpl.
  - destruct (tokenize st rest); reflexivity.
  - destruct (step st c) as [[ts st'] | ]; [ | reflexivity].
    rewrite IH. destruct (lex st' prefix) as [[more st''] | ];
      [ | reflexivity].
    destruct (tokenize st'' rest) as [final | ]; [ | reflexivity].
    rewrite app_assoc. reflexivity.
Qed.

(** The digits of a number are read back as the number. *)
Lemma lex_digits (u : Decimal.uint) :
  forall acc,
    lex (In_number acc) (NilEmpty.string_of_uint u)
    = Some ([], In_number (Nat.of_uint_acc u acc)).
Proof.
  induction u as [ | u IH | u IH | u IH | u IH | u IH | u IH | u IH | u IH
                   | u IH | u IH ];
    intros acc; [reflexivity | .. ];
    cbn [NilEmpty.string_of_uint lex Nat.of_uint_acc];
    match goal with
    | |- context [step (In_number acc) ?c] =>
        let d := eval vm_compute in (digit c) in
        match d with
        | Some ?k =>
            change (step (In_number acc) c)
              with (Some (@nil token, In_number (10 * acc + k)));
            match goal with
            | |- context [Nat.of_uint_acc u ?x] =>
                replace x with (10 * acc + k)
                  by (rewrite Nat.tail_mul_spec; lia)
            end
        end
    end;
    cbv beta iota; rewrite IH; reflexivity.
Qed.

Lemma lex_string_of_nat (n : nat) :
  lex Outside (string_of_nat n) = Some ([], In_number n).
Proof.
  unfold string_of_nat.
  pose proof (DecimalNat.Unsigned.of_to n) as Hn.
  unfold Nat.of_uint in Hn.
  destruct (Nat.to_uint n) as [ | u | u | u | u | u | u | u | u | u | u ]
    eqn:E;
    [ cbn in Hn; subst n; discriminate E | .. ];
    cbn [NilEmpty.string_of_uint lex];
    match goal with
    | |- context [step Outside ?c] =>
        let r := eval vm_compute in (step Outside c) in
        change (step Outside c) with r
    end;
    cbv beta iota; cbn [Nat.of_uint_acc] in Hn; rewrite lex_digits;
    cbn [app]; rewrite <- Hn; reflexivity.
Qed.

(** A text without a quote is read up to the closing quote as one
    token. *)
Lemma lex_quoted (tz : string) :
  forall acc,
    unquoted tz = true ->
    lex (In_quoted acc) (tz ++ "'") = Some ([QUOTED (acc ++ tz)], Outside).
Proof.
  induction tz as [ | c tz IH]; intros acc H.
  - rewrite append_empty. reflexivity.
  - cbn [unquoted] in H. apply andb_true_iff in H. destruct H as [Hc H].
    apply negb_true_iff in Hc.
    cbn [append lex step]. rewrite Hc. rewrite (IH _ H). unfold snoc.
    rewrite append_assoc. reflexivity.
Qed.

Lemma tokenize_DateTime64 (scale : nat) (tz : string) :
  unquoted tz = true ->
  tokenize Outside (DateTime64_declaration scale tz)
  = Some [IDENT "DateTime64"; LPAREN; NUMBER scale; COMMA; QUOTED tz;
          RPAREN].
Proof.
  intros H.
  change (DateTime64_declaration scale tz)
    with ("DateTime64(" ++ string_of_nat scale ++ ", '" ++ tz ++ "')").
  rewrite (tokenize_app "DateTime64(").
  change (lex Outside "DateTime64(")
    with (Some ([IDENT "DateTime64"; LPAREN], Outside)).
  cbv beta match. rewrite tokenize_app, lex_string_of_nat.
  rewrite (tokenize_app ", '").
  change (lex (In_number scale) ", '")
    with (Some ([NUMBER scale; COMMA], In_quoted EmptyString)).
  cbv beta match. change (tz ++ "')") with (tz ++ "'" ++ ")").
  rewrite <- append_assoc, tokenize_app, (lex_quoted tz _ H).
  reflexivity.
Qed.

Lemma tokenize_DateTime64_scale (scale : nat) :
  tokenize Outside ("DateTime64(" ++ string_of_nat scale ++ ")")
  = Some [IDENT "DateTime64"; LPAREN; NUMBER scale; RPAREN].
Proof.
  rewrite (tokenize_app "DateTime64(").
  change (lex Outside "DateTime64(")
    with (Some ([IDENT "DateTime64"; LPAREN], Outside)).
  cbv beta match. rewrite tokenize_app, lex_string_of_nat.
  reflexivity.
Qed.

(** *** Declarations *)

Import declaration.

(** No name of the table of plain types is a keyword. *)
Lemma plain_name_is_no_keyword (name : string) (t : dt.DataType) :
  lookup name plain_types = Some t -> keyword_of name = KPlain.
Proof.
  unfold plain_types. cbn [lookup].
  repeat match goal with
         | |- context [String.eqb name ?k] =>
             destruct (String.eqb_spec name k) as [-> | _];
             [intros _; reflexivity | ]
         end.
  discriminate.
Qed.

Lemma enum_members_tokens (others : list (string * nat)) :
  forall first rest,
    enum_members (members_tokens first others ++ rest) = Some rest.
Proof.
  induction others as [ | m others IH]; intros first rest.
  - reflexivity.
  - cbn [members_tokens member_tokens app enum_members]. apply IH.
Qed.

(** A declaration begins with a name, followed by nothing or by an
    opening parenthesis. *)
Lemma tokens_begin (d : Declaration) :
  exists kw, tokens d = [IDENT kw] \/
             exists tail, tokens d = IDENT kw :: LPAREN :: tail.
Proof.
  destruct d as [ | | | | | [tz | ] | [[s [tz | ]] | ] | | | | | | ];
    cbn [tokens]; eexists;
    first [left; reflexivity | right; eexists; reflexivity].
Qed.

Lemma name_fields_declared (fs : Fields) :
  forall i, name_fields i (declared_fields fs) = tuple_fields i fs.
Proof.
  induction fs as [name type | name type more IH]; intros i; cbn.
  - reflexivity.
  - rewrite IH. reflexivity.
Qed.

Lemma nested_fields_declared (fs : Fields) :
  all_named fs = true ->
  nested_fields (declared_fields fs) = Some (nested_arrays fs).
Proof.
  induction fs as [[n | ] type | [n | ] type more IH]; cbn; intros H;
    try discriminate H.
  - reflexivity.
  - rewrite (IH H). reflexivity.
Qed.

Lemma parse_fields_named (fuel : nat) (n kw : string) (tail : list token) :
  parse_fields (S fuel) (IDENT n :: IDENT kw :: tail)
  = match parse_type fuel (IDENT kw :: tail) with
    | Some (t, COMMA :: rest) =>
        match parse_fields fuel rest with
        | Some (fs, rest') => Some ((Some n, t) :: fs, rest')
        | None => None
        end
    | Some (t, rest) => Some ([(Some n, t)], rest)
    | None => None
    end.
Proof.
  cbn [parse_fields].
  destruct (parse_type fuel (IDENT kw :: tail)) as [[t [ | [] ?]] | ];
    reflexivity.
Qed.

Lemma parse_fields_unnamed (fuel : nat) (kw : string) (tail : list token) :
  match tail with
  | IDENT _ :: _ => False
  | _ => True
  end ->
  parse_fields (S fuel) (IDENT kw :: tail)
  = match parse_type fuel (IDENT kw :: tail) with
    | Some (t, COMMA :: rest) =>
        match parse_fields fuel rest with
        | Some (fs, rest') => Some ((None, t) :: fs, rest')
        | None => None
        end
    | Some (t, rest) => Some ([(None, t)], rest)
    | None => None
    end.
Proof.
  intros H. destruct tail as [ | [] tail]; try contradiction;
    cbn [parse_fields];
    match goal with
    | |- context [parse_type fuel ?ts] =>
        destruct (parse_type fuel ts) as [[t [ | [] ?]] | ]
    end;
    reflexivity.
Qed.

(** One field, whatever follows it. *)
Lemma parse_field (fuel : nat) (name : option string) (d : Declaration)
      (rest : list token) :
  match rest with
  | COMMA :: _ | RPAREN :: _ => True
  | _ => False
  end ->
  parse_fields (S fuel) (name_tokens name ++ tokens d ++ rest)
  = match parse_type fuel (tokens d ++ rest) with
    | Some (t, COMMA :: rest') =>
        match parse_fields fuel rest' with
        | Some (fs, rest'') => Some ((name, t) :: fs, rest'')
        | None => None
        end
    | Some (t, rest') => Some ([(name, t)], rest')
    | None => None
    end.
Proof.
  intros Hrest.
  destruct (tokens_begin d) as [kw [E | [tail E]]]; rewrite E;
    destruct name as [n | ]; cbn [name_tokens app].
  - apply parse_fields_named.
  - apply parse_fields_unnamed. destruct rest as [ | [] ?]; tauto.
  - apply parse_fields_named.
  - apply parse_fields_unnamed. exact I.
Qed.

Ltac enough_fuel H f f' :=
  apply (proj1 (parse_fuel_monotone f f' ltac:(lia))) in H.

(** The parser gives every declaration its type. *)
Lemma parse_declaration :
  (forall d,
      well_formed d = true ->
      forall rest,
        delimited rest ->
        exists fuel,
          parse_type fuel (tokens d ++ rest) = Some (type_of d, rest)) /\
  (forall fs,
      fields_well_formed fs = true ->
      forall rest,
      exists fuel,
        parse_fields fuel (fields_tokens fs ++ RPAREN :: rest)
        = Some (declared_fields fs, RPAREN :: rest)).
Proof.
  apply Declaration_Fields_mutind.
  - intros name Hwf rest Hrest. cbn [well_formed] in Hwf.
    destruct (lookup name plain_types) as [t | ] eqn:E; [ | discriminate Hwf].
    exists 1. cbn [tokens app parse_type type_of].
    rewrite (plain_name_is_no_keyword name t E), E. reflexivity.
  - intros n _ rest _. exists 1. reflexivity.
  - intros wide first others _ rest _. exists 1.
    cbn [tokens app parse_type type_of].
    destruct wide; cbn; rewrite enum_members_tokens; reflexivity.
  - intros _ rest _. exists 1. reflexivity.
  - intros precision scale _ rest _. exists 1. reflexivity.
  - intros [tz | ] _ rest Hrest; exists 1; [reflexivity | ].
    destruct rest as [ | [] rest]; try contradiction; reflexivity.
  - intros [[scale [tz | ]] | ] _ rest Hrest; exists 1; try reflexivity.
    destruct rest as [ | [] rest]; try contradiction; reflexivity.
  - intros inner IH Hwf rest _.
    destruct (IH Hwf (RPAREN :: rest) I) as [fuel H].
    exists (S fuel). cbn [tokens type_of]. rewrite <- !app_comm_cons.
    rewrite <- app_assoc. cbn [app].
    change (parse_type (S fuel) (IDENT "Nullable" :: LPAREN :: ?ts))
      with (match parse_type fuel ts with
            | Some (t, RPAREN :: rest') => Some (dt.copy true t, rest')
            | _ => None
            end).
    rewrite H. reflexivity.
  - intros inner IH Hwf rest Hrest.
    destruct (IH Hwf (RPAREN :: rest) I) as [fuel H].
    exists (S fuel). cbn [tokens type_of]. rewrite <- !app_comm_cons.
    rewrite <- app_assoc. cbn [app].
    change (parse_type (S fuel) (IDENT "LowCardinality" :: LPAREN :: ?ts))
      with (match parse_type fuel ts with
            | Some (t, RPAREN :: rest') => Some (t, rest')
            | _ => None
            end).
    rewrite H. reflexivity.
  - intros element IH Hwf rest _.
    destruct (IH Hwf (RPAREN :: rest) I) as [fuel H].
    exists (S fuel). cbn [tokens type_of]. rewrite <- !app_comm_cons.
    rewrite <- app_assoc. cbn [app].
    change (parse_type (S fuel) (IDENT "Array" :: LPAREN :: ?ts))
      with (match parse_type fuel ts with
            | Some (t, RPAREN :: rest') => Some (dt.Array t false, rest')
            | _ => None
            end).
    rewrite H. reflexivity.
  - intros key IHk value IHv Hwf rest _.
    cbn [well_formed] in Hwf. apply andb_true_iff in Hwf.
    destruct Hwf as [Hk Hv].
    destruct (IHv Hv (RPAREN :: rest) I) as [fv H2].
    destruct (IHk Hk (COMMA :: tokens value ++ RPAREN :: rest) I)
      as [fk H1].
    enough_fuel H1 fk (fk + fv). enough_fuel H2 fv (fk + fv).
    exists (S (fk + fv)). cbn [tokens type_of]. rewrite <- !app_comm_cons.
    rewrite <- !app_assoc. cbn [app]. rewrite <- app_assoc. cbn [app].
    change (parse_type (S (fk + fv)) (IDENT "Map" :: LPAREN :: ?ts))
      with (match parse_type (fk + fv) ts with
            | Some (k, COMMA :: inner') =>
                match parse_type (fk + fv) inner' with
                | Some (v, RPAREN :: rest') => Some (dt.Map k v false, rest')
                | _ => None
                end
            | _ => None
            end).
    rewrite H1, H2. reflexivity.
  - intros fields IH Hwf rest _.
    destruct (IH Hwf rest) as [fuel H].
    exists (S fuel). cbn [tokens type_of]. rewrite <- !app_comm_cons.
    rewrite <- app_assoc. cbn [app].
    change (parse_type (S fuel) (IDENT "Tuple" :: LPAREN :: ?ts))
      with (match parse_fields fuel ts with
            | Some (fs, RPAREN :: rest') =>
                Some (dt.Struct (name_fields 0 fs) false, rest')
            | _ => None
            end).
    rewrite H, name_fields_declared. reflexivity.
  - intros fields IH Hwf rest _.
    cbn [well_formed] in Hwf. apply andb_true_iff in Hwf.
    destruct Hwf as [Hnamed Hwf].
    destruct (IH Hwf rest) as [fuel H].
    exists (S fuel). cbn [tokens type_of]. rewrite <- !app_comm_cons.
    rewrite <- app_assoc. cbn [app].
    change (parse_type (S fuel) (IDENT "Nested" :: LPAREN :: ?ts))
      with (match parse_fields fuel ts with
            | Some (fs, RPAREN :: rest') =>
                match nested_fields fs with
                | Some fields => Some (dt.Struct fields false, rest')
                | None => None
                end
            | _ => None
            end).
    rewrite H, (nested_fields_declared _ Hnamed). reflexivity.
  - intros name type IH Hwf rest.
    destruct (IH Hwf (RPAREN :: rest) I) as [fuel H].
    exists (S fuel). cbn [fields_tokens declared_fields].
    rewrite <- app_assoc, parse_field by exact I.
    rewrite H. reflexivity.
  - intros name type IHt more IHm Hwf rest.
    cbn [fields_well_formed] in Hwf. apply andb_true_iff in Hwf.
    destruct Hwf as [Ht Hm].
    destruct (IHm Hm rest) as [fm H2].
    destruct (IHt Ht (COMMA :: fields_tokens more ++ RPAREN :: rest) I)
      as [ft H1].
    enough_fuel H1 ft (ft + fm).
    apply (proj2 (parse_fuel_monotone fm (ft + fm) ltac:(lia))) in H2.
    exists (S (ft + fm)). cbn [fields_tokens declared_fields].
    rewrite <- !app_assoc. cbn [app].
    rewrite parse_field by exact I.
    cbn [app]. rewrite H1, H2. reflexivity.
Qed.

(** *** Tuples, nested declarations, timestamps, nullability *)




(** C7.  [DateTime64], [DateTime64(0)] and [DateTime64(1)] parse to three
    different timestamps, with no scale, scale 0 and scale 1, and otherwise
    alike (no timezone, non-nullable); and [DateTime64(scale, 'tz')], for
    every scale from 0 to 9 and each of the four timezones of the table,
    parses to the timestamp of exactly that scale and timezone (first three
    parts).  The table is no special case: whatever the number [scale],
    [DateTime64(scale)] parses to the timestamp of that scale, never to the
    one without a scale; whatever the number [scale] and the text [tz] (it
    holds no quote, the lexer having no escape), [DateTime64(scale, 'tz')]
    parses to the timestamp of that scale and that timezone; and two such
    declarations parse to the same type only when they have the same scale
    and the same timezone. *)
Theorem DateTime64_scale_and_timezone :
  (parse "DateTime64" = Some (dt.Timestamp None None false) /\
   parse "DateTime64(0)" = Some (dt.Timestamp (Some 0) None false) /\
   parse "DateTime64(1)" = Some (dt.Timestamp (Some 1) None false)) /\
  (parse "DateTime64" <> parse "DateTime64(0)" /\
   parse "DateTime64" <> parse "DateTime64(1)" /\
   parse "DateTime64(0)" <> parse "DateTime64(1)") /\
  (forall scale tz,
      scale < 10 -> In tz timezones ->
      parse (DateTime64_declaration scale tz)
      = Some (dt.Timestamp (Some scale) (Some tz) false)) /\
  (forall scale,
      parse ("DateTime64(" ++ string_of_nat scale ++ ")")
      = Some (dt.Timestamp (Some scale) None false) /\
      parse ("DateTime64(" ++ string_of_nat scale ++ ")")
      <> parse "DateTime64") /\
  (forall scale tz,
      unquoted tz = true ->
      parse (DateTime64_declaration scale tz)
      = Some (dt.Timestamp (Some scale) (Some tz) false)) /\
  (forall scale tz scale' tz',
      unquoted tz = true -> unquoted tz' = true ->
      parse (DateTime64_declaration scale tz)
      = parse (DateTime64_declaration scale' tz') ->
      scale = scale' /\ tz = tz').
Proof.
  assert (General :
            forall scale tz,
              unquoted tz = true ->
              parse (DateTime64_declaration scale tz)
              = Some (dt.Timestamp (Some scale) (Some tz) false)).
  { intros scale tz H.
    apply (parse_of_tokens _ _ 1 _ (tokenize_DateTime64 scale tz H)).
    reflexivity. }
  assert (Scale :
            forall scale,
              parse ("DateTime64(" ++ string_of_nat scale ++ ")")
              = Some (dt.Timestamp (Some scale) None false)).
  { intros scale.
    apply (parse_of_tokens _ _ 1 _ (tokenize_DateTime64_scale scale)).
    reflexivity. }
  split; [ | split; [ | split; [ | split; [ | split]]]].
  - repeat split; reflexivity.
  - repeat split; vm_compute; discriminate.
  - intros scale tz _ Htz. apply General.
    destruct Htz as [<- | [<- | [<- | [<- | []]]]]; reflexivity.
  - intros scale. split; [apply Scale | ].
    rewrite Scale. vm_compute. discriminate.
  - exact General.
  - intros scale tz scale' tz' H H' E.
    rewrite (General scale tz H), (General scale' tz' H') in E.
    injection E as -> ->. split; reflexivity.
Qed.

(** The flag at the root of the type of a declaration. *)
Lemma type_of_nullable (d : Declaration) :
  well_formed d = true ->
  dt.nullable (type_of d) = wrapped d || dt.is_Null (type_of d).
Proof.
  induction d as [name | | | | | | [[scale tz] | ] | inner IH | inner IH
                  | | | | ];
    intros Hwf; try reflexivity.
  - cbn [well_formed] in Hwf. cbn [type_of wrapped]. revert Hwf.
    unfold plain_types. cbn [lookup].
    repeat match goal with
           | |- context [String.eqb name ?k] =>
               destruct (String.eqb name k); [reflexivity | ]
           end.
    discriminate.
  - cbn [type_of wrapped]. apply nullable_copy.
  - cbn [type_of wrapped]. apply IH. exact Hwf.
Qed.

(** C8, amended.  The nullable flag of a parsed type is decided at its own
    node: it is true exactly when the declaration is wrapped in
    [Nullable(...)] there, or is the void type ([Nothing], [Null]), which
    parses to the constant [dt.null]; [LowCardinality(T)] is [T] itself,
    flag included, so a wrapper under it counts as one on it.  This holds
    for every declaration inside a text (first part) and for the text
    itself (second part).  A wrapper changes the flag of the type it wraps
    and nothing else, and a map is non-nullable whatever its key and value
    are: [Map(Nullable(String), Nullable(UInt64))] parses to a non-nullable
    map with a nullable string key and a nullable uint64 value (third to
    fifth part).  The flags below the root are fixed as well: every
    declaration of the grammar, at any depth and followed by anything that
    may follow a declaration, parses to its type [type_of], node by node
    (sixth part), and so does a whole text (seventh part); in that type a
    node is nullable exactly when the declaration of that node is wrapped
    or void (eighth part, at every node since the type of a container
    holds the types of the declarations it holds). *)
Theorem nullable_only_from_wrapper :
  (forall fuel ts t rest,
      parse_type fuel ts = Some (t, rest) ->
      dt.nullable t = nullable_marked ts || dt.is_Null t) /\
  (forall text ts t,
      tokenize Outside text = Some ts ->
      parse text = Some t ->
      dt.nullable t = nullable_marked ts || dt.is_Null t) /\
  (forall fuel inner t rest,
      parse_type fuel inner = Some (t, RPAREN :: rest) ->
      parse_type (S fuel) (IDENT "Nullable" :: LPAREN :: inner)
      = Some (dt.copy true t, rest)) /\
  (forall fuel inner k inner' v rest,
      parse_type fuel inner = Some (k, COMMA :: inner') ->
      parse_type fuel inner' = Some (v, RPAREN :: rest) ->
      parse_type (S fuel) (IDENT "Map" :: LPAREN :: inner)
      = Some (dt.Map k v false, rest)) /\
  parse "Map(Nullable(String), Nullable(UInt64))"
  = Some (dt.Map (dt.String true) (dt.UInt64 true) false) /\
  (forall d rest,
      well_formed d = true -> delimited rest ->
      exists fuel,
        parse_type fuel (tokens d ++ rest) = Some (type_of d, rest)) /\
  (forall text d,
      well_formed d = true ->
      tokenize Outside text = Some (tokens d) ->
      parse text = Some (type_of d)) /\
  (forall d,
      well_formed d = true ->
      dt.nullable (type_of d) = wrapped d || dt.is_Null (type_of d)).
Proof.
  split; [ | split; [ | split; [ | split; [ | split; [ | split;
    [ | split]]]]]].
  - intros fuel. apply parse_type_nullable.
  - intros text ts t Hts H.
    destruct (parse_tokens text t H) as (ts' & Hts' & Hp).
    rewrite Hts in Hts'. injection Hts' as <-.
    exact (parse_type_nullable _ ts t [] Hp).
  - intros fuel inner t rest H. simpl. rewrite H. reflexivity.
  - intros fuel inner k inner' v rest Hk Hv. simpl. rewrite Hk, Hv.
    reflexivity.
  - reflexivity.
  - intros d rest Hwf Hrest.
    exact (proj1 parse_declaration d Hwf rest Hrest).
  - intros text d Hwf Hts.
    destruct (proj1 parse_declaration d Hwf [] I) as [fuel H].
    rewrite app_nil_r in H.
    exact (parse_of_tokens text _ fuel _ Hts H).
  - exact type_of_nullable.
Qed.

(** The claim of C8 fails on the void type: the element of
    [Array(Nothing)] stands under no [Nullable] wrapper, and its flag is
    true. *)
Lemma Nothing_is_nullable_without_wrapper :
  parse "Array(Nothing)" = Some (dt.Array (dt.Null true) false) /\
  tokenize Outside "Nothing" = Some [IDENT "Nothing"] /\
  nullable_marked [IDENT "Nothing"] = false /\
  parse "Nothing" = Some (dt.Null true) /\
  dt.nullable (dt.Null true) <> false.
Proof.
  repeat split; try reflexivity. discriminate.
Qed.



Lemma DateTime64_scale_and_timezone_witness :
  parse "DateTime64(12, 'Europe/Berlin')"
  = Some (dt.Timestamp (Some 12) (Some "Europe/Berlin") false).
Proof.
  apply (proj1 (proj2 (proj2 (proj2 (proj2 DateTime64_scale_and_timezone))))
               12 "Europe/Berlin").
  reflexivity.
Defined.

Lemma nullable_only_from_wrapper_witness :
  parse "Array(Array(Nullable(Int8)))"
  = Some (dt.Array (dt.Array (dt.Int8 true) false) false) /\
  dt.nullable (dt.Map (dt.String true) (dt.UInt64 true) false)
  = nullable_marked
      [IDENT "Map"; LPAREN; IDENT "Nullable"; LPAREN; IDENT "String"; RPAREN;
       COMMA; IDENT "Nullable"; LPAREN; IDENT "UInt64"; RPAREN; RPAREN]
    || dt.is_Null (dt.Map (dt.String true) (dt.UInt64 true) false).
Proof.
  split.
  - apply (proj1 (proj2 (proj2 (proj2 (proj2 (proj2
             (proj2 nullable_only_from_wrapper))))))
                 "Array(Array(Nullable(Int8)))"
                 (Array (Array (Nullable (Plain "Int8"))))).
    + reflexivity.
    + reflexivity.
  - apply (proj1 (proj2 nullable_only_from_wrapper)
                 "Map(Nullable(String), Nullable(UInt64))").
    + reflexivity.
    + reflexivity.
Defined.

(** ** More on the operation nodes *)

Section CompositionFacts.

Context {rlz : Rules}.

(** X1.  [And], [Or] and [Xor] (the subclasses of [LogicalBinary]) accept
    two nodes exactly when the dtype of both is an instance of
    [dt.Boolean]; the node then has dtype [dt.boolean], and every failure
    is a [ValidationError]. *)
Theorem LogicalBinary_requires_booleans
        (cls : ops.Class) (left right : Value) :
  In cls [ops.And; ops.Or; ops.Xor] ->
  (dt.is_Boolean (dtype left) && dt.is_Boolean (dtype right) = true <->
   exists n, create cls [One left; One right] = Ok n) /\
  (forall n, create cls [One left; One right] = Ok n ->
             args n = [One left; One right] /\ node_dtype n = dt.boolean) /\
  (forall e, create cls [One left; One right] = Raise e ->
             exists m, e = ValidationError m).
Proof.
  intros Hcls.
  assert (H : create cls [One left; One right]
              = bind (Value_Boolean "left" left ;;; Value_Boolean "right" right)
                     (fun _ =>
                        Ok (mkNode cls [One left; One right] dt.boolean
                                   (shape_like [One left; One right])))).
  { destruct Hcls as [<- | [<- | [<- | []]]]; reflexivity. }
  rewrite H. unfold Value_Boolean.
  destruct (dt.is_Boolean (dtype left)), (dt.is_Boolean (dtype right));
    simpl; (split; [ | split]).
  all: try (split; [intros _; eexists; reflexivity | intros _; reflexivity]).
  all: try (split; [discriminate | intros [n Hn]; discriminate Hn]).
  all: try (intros n Hn; injection Hn as <-; split; reflexivity).
  all: try (intros n Hn; discriminate Hn).
  all: try (intros e He; discriminate He).
  all: intros e He; injection He as <-; eexists; reflexivity.
Qed.

(** Every class of logical.py but [IfElse] fixes [dtype = dt.boolean]. *)
Lemma dtype_is_boolean (cls : ops.Class) (a : list Arg) (n : Node) :
  cls <> ops.IfElse -> create cls a = Ok n -> node_dtype n = dt.boolean.
Proof.
  intros Hcls Hn. pose proof (create_stages cls a) as H. rewrite Hn in H.
  destruct H as (_ & _ & Hd & _).
  destruct cls; try contradiction; simpl in Hd; injection Hd as <-;
    reflexivity.
Qed.

(** X2.  The nodes of logical.py compose: a node of any class but
    [IfElse], passed on as an argument, is accepted by [Not], by [And],
    [Or] and [Xor] together with any other such node, and as the condition
    of [IfElse], which then succeeds exactly when its two branches have a
    common type. *)
Theorem boolean_nodes_compose
        (cls1 cls2 : ops.Class) (a1 a2 : list Arg) (n1 n2 : Node)
        (v1 v2 : Value) :
  cls1 <> ops.IfElse -> cls2 <> ops.IfElse ->
  create cls1 a1 = Ok n1 -> create cls2 a2 = Ok n2 ->
  stands_for v1 n1 -> stands_for v2 n2 ->
  (exists m, Not v1 = Ok m) /\
  (exists m, And v1 v2 = Ok m) /\
  (exists m, Or v1 v2 = Ok m) /\
  (exists m, Xor v1 v2 = Ok m) /\
  (forall true_expr false_null_expr,
      is_Ok (IfElse v1 true_expr false_null_expr)
      = is_Ok (highest_precedence_dtype [true_expr; false_null_expr])).
Proof.
  intros Hc1 Hc2 H1 H2 [Hv1 _] [Hv2 _].
  apply (dtype_is_boolean cls1 a1 n1 Hc1) in H1.
  apply (dtype_is_boolean cls2 a2 n2 Hc2) in H2.
  rewrite H1 in Hv1. rewrite H2 in Hv2.
  unfold Not, And, Or, Xor, IfElse, create, Annotable__init__; simpl.
  unfold Value_Boolean. rewrite Hv1, Hv2. simpl.
  repeat split; try (eexists; reflexivity).
  intros t f. destruct (highest_precedence_dtype [t; f]); reflexivity.
Qed.

(** X3.  [Between(arg, lower, upper)] is accepted exactly like the two
    comparisons it stands for: it succeeds exactly when
    [GreaterEqual(arg, lower)] and [LessEqual(arg, upper)] both do.  When
    it fails, the first of the two comparisons that fails carries the same
    message, raised there as [IbisTypeError] and here as
    [ValidationError]; [Between] itself never raises [IbisTypeError]. *)
Theorem Between_as_two_comparisons (arg lower_bound upper_bound : Value) :
  is_Ok (Between arg lower_bound upper_bound)
  = is_Ok (GreaterEqual arg lower_bound)
    && is_Ok (LessEqual arg upper_bound) /\
  (forall e,
      Between arg lower_bound upper_bound = Raise e ->
      exists m,
        e = ValidationError m /\
        (GreaterEqual arg lower_bound = Raise (IbisTypeError m) \/
         (is_Ok (GreaterEqual arg lower_bound) = true /\
          LessEqual arg upper_bound = Raise (IbisTypeError m)))).
Proof.
  unfold Between, GreaterEqual, LessEqual, Comparison, create,
    Annotable__init__, init; simpl.
  unfold Between__init__, Comparison__init__.
  destruct (comparable arg lower_bound), (comparable arg upper_bound); simpl;
    (split; [reflexivity | ]); intros e He; try discriminate He;
    injection He as <-; eexists; (split; [reflexivity | ]); auto.
Qed.

End CompositionFacts.

(** ** The DataFusion backend *)

Module datafusion_facts.

Import datafusion.

Lemma startswith_iff (s affix : string) :
  startswith s affix = true <-> exists r, s = affix ++ r.
Proof.
  unfold startswith. revert s.
  induction affix as [ | a affix IH]; intros s; simpl.
  - destruct s; split; intros _; try reflexivity; eexists; reflexivity.
  - destruct s as [ | b s]; simpl.
    + split; [discriminate | intros [r Hr]; discriminate Hr].
    + destruct (ascii_dec a b) as [<- | Hab].
      * rewrite IH. split; intros [r Hr]; exists r.
        -- rewrite Hr. reflexivity.
        -- injection Hr as ->. reflexivity.
      * split; [discriminate | ].
        intros [r Hr]. injection Hr as Hb _. congruence.
Qed.

Lemma endswith_iff (s affix : string) :
  endswith s affix = true <-> exists p, s = p ++ affix.
Proof.
  induction s as [ | c s IH]; cbn [endswith].
  - rewrite orb_false_r, String.eqb_eq. split.
    + intros <-. exists EmptyString. reflexivity.
    + intros [[ | ? ?] Hp]; simpl in Hp; [congruence | discriminate Hp].
  - rewrite orb_true_iff, String.eqb_eq, IH. split.
    + intros [<- | [p ->]].
      * exists EmptyString. reflexivity.
      * exists (String c p). reflexivity.
    + intros [[ | c' p] Hp]; simpl in Hp.
      * left. exact Hp.
      * right. injection Hp as _ ->. exists p. reflexivity.
Qed.

Lemma is_parquet_iff (first : string) :
  is_parquet first = true <-> looks_like_parquet first.
Proof.
  unfold is_parquet, looks_like_parquet, startswith_any, endswith_any.
  cbn [existsb].
  rewrite !orb_false_r, !orb_true_iff, !startswith_iff, !endswith_iff.
  tauto.
Qed.

Lemma is_csv_iff (first : string) :
  is_csv first = true <-> looks_like_csv first.
Proof.
  unfold is_csv, looks_like_csv, startswith_any, endswith_any.
  cbn [existsb].
  rewrite !orb_false_r, !orb_true_iff, !startswith_iff, !endswith_iff.
  tauto.
Qed.

Section BackendFacts.

Context {foreign : Foreign} (world : World) (compiler : Compiler).

(** Reading the members of the backend always fails: at
    [current_database], or at an attribute listed before it. *)
Lemma getmembers_raises (before after : list (string * Attribute)) :
  exists e,
    getmembers (before
                ++ ("current_database", property current_database) :: after)
    = Raises e /\
    (e = NotImplementedError \/ exists key, In (key, failing e) before).
Proof.
  induction before as [ | [key [ | [ | ] | e0]] before (e & He & Hor)];
    cbn [app getmembers].
  - exists NotImplementedError. split; [reflexivity | left; reflexivity].
  - exists e. rewrite He. split; [reflexivity | ].
    destruct Hor as [-> | [k Hk]]; [left | right; exists k; right];
      auto.
  - exists e. rewrite He. split; [reflexivity | ].
    destruct Hor as [-> | [k Hk]]; [left | right; exists k; right];
      auto.
  - exists e. split; [exact He | ].
    destruct Hor as [-> | [k Hk]]; [left | right; exists k; right];
      auto.
  - exists e0. split; [reflexivity | ]. right. exists key. left. reflexivity.
Qed.

Lemma _register_failure_raises {A : Type} (h : list Call) :
  exists e,
    @_register_failure _ world A h = (Raises e, h) /\
    (e = NotImplementedError \/
     exists key, In (key, failing e) (earlier_members world)).
Proof.
  destruct (getmembers_raises (earlier_members world) (later_members world))
    as (e & He & Hor).
  exists e. split; [ | exact Hor].
  unfold _register_failure, andthen, lift, dir_self. rewrite He. reflexivity.
Qed.

(** X4.  How [register] chooses the reader of a path: a path that begins
    with [parquet://] or [parq://] or ends with [parq] or [parquet] (no
    dot is asked for) goes to [read_parquet], also when it looks like CSV
    as well; any other path that begins with [csv://] or [txt://] or ends
    with [csv], [tsv] or [txt] goes to [read_csv].  Every other path goes
    to [_register_failure], which does not reach its [ValueError]:
    [inspect.getmembers] reads every attribute of the backend, the property
    [current_database] raises [NotImplementedError], and that exception, or
    one raised by an attribute read before it, ends the call; no call on
    the session has been made. *)
Theorem register_dispatches_on_affixes
        (p : PathLike) (table_name : option string) (kwargs : Kwargs) :
  (looks_like_parquet (str p) ->
   register world (a_path p) table_name kwargs
   = read_parquet world p table_name kwargs) /\
  (~ looks_like_parquet (str p) -> looks_like_csv (str p) ->
   register world (a_path p) table_name kwargs
   = read_csv world p table_name kwargs) /\
  (~ looks_like_parquet (str p) -> ~ looks_like_csv (str p) ->
   forall h,
   exists e,
     register world (a_path p) table_name kwargs h = (Raises e, h) /\
     (e = NotImplementedError \/
      exists key, In (key, failing e) (earlier_members world))).
Proof.
  unfold register. rewrite <- is_parquet_iff, <- is_csv_iff.
  destruct (is_parquet (str p)), (is_csv (str p));
    repeat split; intros; try congruence; try reflexivity;
    try apply _register_failure_raises;
    exfalso; auto.
Qed.

(** *** Calls and traces *)

Lemma extends_ret {A : Type} (a : A) : extends (ret a).
Proof. intros h. exists []. simpl. rewrite app_nil_r. reflexivity. Qed.

Lemma extends_raise {A : Type} (e : Raised) : extends (@raise _ A e).
Proof. intros h. exists []. simpl. rewrite app_nil_r. reflexivity. Qed.

Lemma extends_lift {A : Type} (o : Outcome A) : extends (lift o).
Proof. intros h. exists []. simpl. rewrite app_nil_r. reflexivity. Qed.

Lemma extends_perform {A : Type} (c : Call) (value : list Call -> A) :
  extends (perform world c value).
Proof.
  intros h. exists [c]. unfold perform.
  destruct (raises world h c); reflexivity.
Qed.

Lemma extends_andthen {A B : Type} (m : Action A) (k : A -> Action B) :
  extends m -> (forall a, extends (k a)) -> extends (andthen m k).
Proof.
  intros Hm Hk h. unfold andthen.
  destruct (Hm h) as [l Hl]. destruct (m h) as [[a | e] h']; simpl in Hl.
  - destruct (Hk a h') as [l' Hl']. exists (l ++ l')%list.
    rewrite Hl', Hl, app_assoc. reflexivity.
  - exists l. exact Hl.
Qed.

Lemma extends_try_finally {A : Type} (body : Action A)
      (cleanup : Action unit) :
  extends body -> extends cleanup -> extends (try_finally body cleanup).
Proof.
  intros Hb Hc h. unfold try_finally.
  destruct (Hb h) as [l Hl]. destruct (body h) as [out h']; simpl in Hl.
  destruct (Hc h') as [l' Hl'].
  exists (l ++ l')%list.
  destruct (cleanup h') as [[[] | e] h'']; simpl in *;
    rewrite Hl', Hl, app_assoc; reflexivity.
Qed.

(** An action that begins with a call has made a call when it ends. *)
Lemma call_first {A B : Type} (c : Call) (value : list Call -> A)
      (k : A -> Action B) (h : list Call) :
  (forall a, extends (k a)) ->
  exists l, snd (andthen (perform world c value) k h) = (h ++ c :: l)%list.
Proof.
  intros Hk. unfold andthen, perform.
  destruct (raises world h c).
  - exists []. reflexivity.
  - destruct (Hk (value h) (h ++ [c])%list) as [l Hl]. exists l.
    rewrite Hl, <- app_assoc. reflexivity.
Qed.

Lemma not_extended (h : list Call) (c : Call) (l : list Call) :
  (h ++ c :: l)%list <> h.
Proof.
  intros H. apply (f_equal (@length Call)) in H.
  rewrite length_app in H. simpl in H. lia.
Qed.

Ltac extends_auto :=
  repeat first
         [ apply extends_andthen; [ | intros ? ]
         | apply extends_perform
         | apply extends_ret
         | apply extends_raise
         | apply extends_lift
         | apply extends_try_finally ].

Lemma extends_or_gen_name (table_name : option string) (prefix : string) :
  extends (or_gen_name world table_name prefix).
Proof.
  destruct table_name as [[ | c s] | ]; unfold or_gen_name; extends_auto.
Qed.

Lemma extends_raw_sql (query : string + Expression) :
  extends (raw_sql world compiler query).
Proof. unfold raw_sql, call. extends_auto. Qed.

(** Running an action step by step: one case per call that may raise. *)
Ltac run_in H :=
  repeat match type of H with
         | context [raises world ?h ?c] =>
             destruct (raises world h c) eqn:?; simpl in H
         end.

(** X5.  Whenever [register] returns a table, it has deregistered the
    name and then registered the source under that same name, once, before
    fetching the table of that name: so registering again under a name
    replaces the earlier table.  The only call that may come before is
    the one [gen_name] of a path registered without a name; for a source
    that is no path the name is the [table_name] given, as it is. *)
Theorem register_deregisters_first
        (source : Source) (table_name : option string) (kwargs : Kwargs)
        (h h' : list Call) (t : IbisTable) :
  register world source table_name kwargs h = (Returns t, h') ->
  exists pre n reg,
    h' = (h ++ pre ++ [deregister_table n; reg; self_table n None])%list /\
    registers_under reg n /\
    (pre = [] \/ exists prefix, pre = [gen_name prefix]) /\
    match source with
    | a_path _ => True
    | _ => pre = [] /\ n = table_name
    end.
Proof.
  intros H.
  destruct source as [p | ? | ? | ? | df | ]; unfold register in H.
  - destruct (is_parquet (str p));
      [ | destruct (is_csv (str p));
          [ | destruct (@_register_failure_raises IbisTable h)
                as (e & He & _);
              rewrite He in H; discriminate H ] ];
      unfold read_parquet, read_csv, or_gen_name, the_table,
        call, andthen, perform, ret, raise in H;
      destruct table_name as [[ | c s] | ];
      run_in H; try discriminate H; injection H as <- <-;
      first
        [ exists []; do 2 eexists; split;
          [rewrite <- !app_assoc; reflexivity
          | split; [reflexivity | split; [left; reflexivity | exact I]]]
        | eexists [gen_name _]; do 2 eexists; split;
          [rewrite <- !app_assoc; reflexivity
          | split; [reflexivity
                   | split; [right; eexists; reflexivity | exact I]]] ].
  - unfold register_Table, the_table, call, andthen, perform in H.
    run_in H; try discriminate H; injection H as <- <-.
    exists [], table_name. eexists. split;
      [rewrite <- !app_assoc; reflexivity | repeat split; auto].
  - unfold the_table, call, andthen, perform in H.
    run_in H; try discriminate H; injection H as <- <-.
    exists [], table_name. eexists. split;
      [rewrite <- !app_assoc; reflexivity | repeat split; auto].
  - unfold the_table, call, andthen, perform in H.
    run_in H; try discriminate H; injection H as <- <-.
    exists [], table_name. eexists. split;
      [rewrite <- !app_assoc; reflexivity | repeat split; auto].
  - unfold register_Table, the_table, call, andthen, perform, lift in H.
    destruct (from_pandas df) as [table | e]; [ | discriminate H].
    run_in H; try discriminate H; injection H as <- <-.
    exists [], table_name. eexists. split;
      [rewrite <- !app_assoc; reflexivity | repeat split; auto].
  - discriminate H.
Qed.

Lemma extends_read_csv (p : PathLike) (table_name : option string)
      (kwargs : Kwargs) :
  extends (read_csv world p table_name kwargs).
Proof.
  unfold read_csv, the_table, call.
  apply extends_andthen; [apply extends_or_gen_name | intros ?].
  extends_auto.
Qed.

Lemma extends_read_parquet (p : PathLike) (table_name : option string)
      (kwargs : Kwargs) :
  extends (read_parquet world p table_name kwargs).
Proof.
  unfold read_parquet, the_table, call.
  apply extends_andthen; [apply extends_or_gen_name | intros ?].
  extends_auto.
Qed.

(** A reader has made a call when it ends. *)
Lemma reader_calls (prefix : string) (table_name : option string)
      (k : string -> Action IbisTable) (h : list Call) :
  (forall n, extends (k n)) ->
  exists c l,
    snd (andthen (or_gen_name world table_name prefix)
                 (fun n => andthen (call world (deregister_table (Some n)))
                                   (fun _ => k n)) h)
    = (h ++ c :: l)%list.
Proof.
  intros Hk. unfold or_gen_name.
  destruct table_name as [[ | c s] | ].
  - eexists. apply call_first. intros n. unfold call. extends_auto.
    apply Hk.
  - eexists. change (andthen (ret (String c s)) ?f h) with (f (String c s) h).
    apply call_first. intros ?. apply Hk.
  - eexists. apply call_first. intros n. unfold call. extends_auto.
    apply Hk.
Qed.

(** X6.  [register] ends without having made a call exactly when it
    rejects the source before reaching the session: a source of no
    supported type, which raises [ValueError]; a path that looks like
    neither parquet nor CSV, which raises what [_register_failure] raises
    ([NotImplementedError] of [current_database], or the exception of an
    attribute read before it); or a [pd.DataFrame] whose conversion to a
    [pa.Table] raises.  In every other case a call on the session has been
    made, whatever happens afterwards. *)
Theorem register_makes_no_call_iff_rejected
        (source : Source) (table_name : option string) (kwargs : Kwargs)
        (h : list Call) :
  (snd (register world source table_name kwargs h) = h <->
   source = another \/
   (exists p, source = a_path p /\
              ~ looks_like_parquet (str p) /\ ~ looks_like_csv (str p)) \/
   (exists df e, source = a_DataFrame df /\ from_pandas df = Raises e)) /\
  (snd (register world source table_name kwargs h) = h ->
   exists e,
     fst (register world source table_name kwargs h) = Raises e /\
     match source with
     | another =>
         e = ValueError "`source` must be either a string or a pathlib.Path"
     | a_path _ =>
         e = NotImplementedError \/
         exists key, In (key, failing e) (earlier_members world)
     | a_DataFrame df => from_pandas df = Raises e
     | _ => False
     end).
Proof.
  assert (Hcalls :
            forall c (k : unit -> Action IbisTable),
              (forall a, extends (k a)) ->
              snd (andthen (call world c) k h) <> h).
  { intros c k Hk. unfold call.
    destruct (call_first c (fun _ => tt) k h Hk) as [l ->].
    apply not_extended. }
  assert (Hdirect :
            forall c c' n,
              snd (andthen (call world c)
                           (fun _ => andthen (call world c')
                                             (fun _ => the_table world n None))
                           h) <> h).
  { intros c c' n. apply Hcalls. intros ?.
    unfold call, the_table. extends_auto. }
  destruct source as [p | ? | ? | ? | df | ]; unfold register.
  - destruct (is_parquet (str p)) eqn:Hp; [ | destruct (is_csv (str p)) eqn:Hc].
    + assert (Hne : snd (read_parquet world p table_name kwargs h) <> h).
      { unfold read_parquet.
        destruct (reader_calls "read_parquet" table_name
                    (fun n => andthen
                                (call world
                                   (register_parquet
                                      n (normalize_filename p) kwargs))
                                (fun _ => the_table world (Some n) None)) h)
          as (c & l & ->).
        - intros n. unfold call, the_table. extends_auto.
        - apply not_extended. }
      split; [split | ]; intros H; try contradiction.
      destruct H as [H | [(p' & H & Hp' & _) | (? & ? & H & _)]];
        try discriminate H.
      injection H as <-. exfalso. apply Hp'. apply is_parquet_iff. exact Hp.
    + assert (Hne : snd (read_csv world p table_name kwargs h) <> h).
      { unfold read_csv.
        destruct (reader_calls "read_csv" table_name
                    (fun n => andthen
                                (call world
                                   (register_csv
                                      n (normalize_filename p) kwargs))
                                (fun _ => the_table world (Some n) None)) h)
          as (c & l & ->).
        - intros n. unfold call, the_table. extends_auto.
        - apply not_extended. }
      split; [split | ]; intros H; try contradiction.
      destruct H as [H | [(p' & H & _ & Hc') | (? & ? & H & _)]];
        try discriminate H.
      injection H as <-. exfalso. apply Hc'. apply is_csv_iff. exact Hc.
    + destruct (@_register_failure_raises IbisTable h) as (e & He & Hor).
      rewrite He. cbn [fst snd].
      split; [split | ]; intros _; try reflexivity.
      * right. left. exists p. split; [reflexivity | ].
        rewrite <- is_parquet_iff, <- is_csv_iff, Hp, Hc.
        split; discriminate.
      * exists e. split; [reflexivity | exact Hor].
  - unfold register_Table. split; [split | ]; intros H.
    + exfalso. revert H. apply Hdirect.
    + destruct H as [H | [(? & H & _) | (? & ? & H & _)]]; discriminate H.
    + exfalso. revert H. apply Hdirect.
  - split; [split | ]; intros H.
    + exfalso. revert H. apply Hdirect.
    + destruct H as [H | [(? & H & _) | (? & ? & H & _)]]; discriminate H.
    + exfalso. revert H. apply Hdirect.
  - split; [split | ]; intros H.
    + exfalso. revert H. apply Hdirect.
    + destruct H as [H | [(? & H & _) | (? & ? & H & _)]]; discriminate H.
    + exfalso. revert H. apply Hdirect.
  - unfold andthen at 1 2 3, lift.
    destruct (from_pandas df) as [table | e] eqn:Hdf; cbn [fst snd].
    + unfold register_Table. split; [split | ]; intros H.
      * exfalso. revert H. apply Hdirect.
      * destruct H as [H | [(? & H & _) | (df' & e & H & He)]];
          try discriminate H.
        injection H as <-. congruence.
      * exfalso. revert H. apply Hdirect.
    + split; [split | ]; intros _; try reflexivity.
      * right. right. exists df, e. split; [reflexivity | exact Hdf].
      * exists e. split; reflexivity.
  - simpl. split; [split | ]; intros _; try reflexivity.
    + left. reflexivity.
    + eexists. split; reflexivity.
Qed.

(** X7.  The name under which [read_csv] registers: an empty
    [table_name] is treated as none ([table_name or gen_name(...)]), and
    then the first call is [gen_name("read_csv")] and the name it returns
    is the one deregistered next; a non-empty name is used as it is,
    deregistered first, and no name is ever generated. *)
Theorem read_csv_table_name
        (p : PathLike) (kwargs : Kwargs) (h : list Call) :
  read_csv world p (Some EmptyString) kwargs h = read_csv world p None kwargs h
  /\
  (exists l,
      snd (read_csv world p None kwargs h)
      = (h ++ gen_name "read_csv" :: l)%list /\
      (raises world h (gen_name "read_csv") = None ->
       hd_error l
       = Some (deregister_table (Some (generated world h "read_csv")))))
  /\
  (forall n,
      n <> EmptyString ->
      exists l,
        snd (read_csv world p (Some n) kwargs h)
        = (h ++ deregister_table (Some n) :: l)%list /\
        forall prefix, ~ In (gen_name prefix) l).
Proof.
  split; [reflexivity | split].
  - unfold read_csv, or_gen_name, the_table, call, andthen, perform.
    destruct (raises world h (gen_name "read_csv")) eqn:Hg; simpl.
    + exists []. split; [reflexivity | discriminate].
    + repeat match goal with
             | |- context [raises world ?h ?c] =>
                 destruct (raises world h c); simpl
             end;
        eexists; (split; [rewrite <- !app_assoc; reflexivity | ]);
        intros _; reflexivity.
  - intros [ | c n] Hn; [contradiction | ].
    unfold read_csv, or_gen_name, the_table, call, andthen, perform, ret.
    repeat match goal with
           | |- context [raises world ?h ?c] =>
               destruct (raises world h c); simpl
           end;
      eexists; (split; [rewrite <- ?app_assoc; reflexivity | ]);
      intros prefix Hin; simpl in Hin;
      repeat (destruct Hin as [Hin | Hin]; try discriminate Hin);
      exact Hin.
Qed.

(** X8.  [_register_in_memory_table], when it returns, has made two
    calls: it has deregistered the name and then registered it once, the
    batches when there is one at least, and the empty dataset otherwise;
    an empty list of batches is never registered. *)
Theorem _register_in_memory_table_replaces
        (name : string) (batches : list RecordBatch)
        (empty_dataset : Dataset) (h h' : list Call) :
  _register_in_memory_table world name batches empty_dataset h
  = (Returns tt, h') ->
  exists reg,
    h' = (h ++ [deregister_table (Some name); reg])%list /\
    ((batches <> [] /\
      reg = register_record_batches (Some name) [batches]) \/
     (batches = [] /\ reg = register_dataset (Some name) empty_dataset)).
Proof.
  intros H.
  unfold _register_in_memory_table, call, andthen, perform in H.
  destruct batches as [ | b bs]; run_in H; try discriminate H;
    injection H as <-; eexists;
    (split; [rewrite <- !app_assoc; reflexivity | ]).
  - right. split; reflexivity.
  - left. split; [discriminate | reflexivity].
Qed.

(** *** Stepping through an action *)

Lemma perform_returns {A : Type} (c : Call) (value : list Call -> A)
      (h : list Call) :
  raises world h c = None ->
  perform world c value h = (Returns (value h), (h ++ [c])%list).
Proof. intros H. unfold perform. rewrite H. reflexivity. Qed.

Lemma perform_cases {A : Type} (c : Call) (value : list Call -> A)
      (h : list Call) :
  perform world c value h = (Returns (value h), (h ++ [c])%list) \/
  exists e, perform world c value h = (Raises e, (h ++ [c])%list).
Proof.
  unfold perform. destruct (raises world h c) as [e | ].
  - right. exists e. reflexivity.
  - left. reflexivity.
Qed.

Lemma perform_inv {A : Type} (c : Call) (value : list Call -> A)
      (h h' : list Call) (a : A) :
  perform world c value h = (Returns a, h') ->
  raises world h c = None /\ a = value h /\ h' = (h ++ [c])%list.
Proof.
  unfold perform. destruct (raises world h c); intros H;
    [discriminate H | ].
  injection H as <- <-. repeat split.
Qed.

Lemma andthen_returns {A B : Type} (m : Action A) (k : A -> Action B)
      (h h' : list Call) (a : A) :
  m h = (Returns a, h') -> andthen m k h = k a h'.
Proof. intros H. unfold andthen. rewrite H. reflexivity. Qed.

Lemma andthen_raises {A B : Type} (m : Action A) (k : A -> Action B)
      (h h' : list Call) (e : Raised) :
  m h = (Raises e, h') -> andthen m k h = (Raises e, h').
Proof. intros H. unfold andthen. rewrite H. reflexivity. Qed.

Lemma andthen_inv {A B : Type} (m : Action A) (k : A -> Action B)
      (h h' : list Call) (b : B) :
  andthen m k h = (Returns b, h') ->
  exists a h1, m h = (Returns a, h1) /\ k a h1 = (Returns b, h').
Proof.
  unfold andthen. destruct (m h) as [[a | e] h1]; intros H.
  - exists a, h1. split; [reflexivity | exact H].
  - discriminate H.
Qed.

Lemma lift_inv {A : Type} (o : Outcome A) (h h' : list Call) (a : A) :
  lift o h = (Returns a, h') -> o = Returns a /\ h' = h.
Proof. unfold lift. intros H. injection H as -> <-. split; reflexivity. Qed.

Lemma try_finally_inv {A : Type} (body : Action A) (cleanup : Action unit)
      (h h' : list Call) (a : A) :
  try_finally body cleanup h = (Returns a, h') ->
  exists h1, body h = (Returns a, h1) /\ cleanup h1 = (Returns tt, h').
Proof.
  unfold try_finally. destruct (body h) as [out h1].
  destruct (cleanup h1) as [[[] | e] h2] eqn:Hc; intros H;
    [ | discriminate H].
  injection H as -> <-. exists h1. split; [reflexivity | exact Hc].
Qed.

Lemma raw_sql_cases (query : string + Expression) (h : list Call) :
  let text := match query with
              | inl text => text
              | inr e => sql compiler true e
              end in
  (exists e, raw_sql world compiler query h
             = (Raises e, (h ++ [_log text])%list)) \/
  (exists e, raw_sql world compiler query h
             = (Raises e, (h ++ [_log text; con_sql text])%list)) \/
  (raises world h (_log text) = None /\
   raises world (h ++ [_log text]) (con_sql text) = None /\
   raw_sql world compiler query h
   = (Returns (frame world (h ++ [_log text]) text),
      (h ++ [_log text; con_sql text])%list)).
Proof.
  intros text. unfold raw_sql, call. fold text.
  unfold andthen, perform.
  destruct (raises world h (_log text)) as [e | ].
  - left. exists e. reflexivity.
  - destruct (raises world (h ++ [_log text]) (con_sql text)) as [e | ];
      rewrite <- app_assoc; simpl.
    + right. left. exists e. reflexivity.
    + right. right. repeat split.
Qed.

Lemma raw_sql_returns (query : string + Expression) (h : list Call) :
  let text := match query with
              | inl text => text
              | inr e => sql compiler true e
              end in
  raises world h (_log text) = None ->
  raises world (h ++ [_log text]) (con_sql text) = None ->
  raw_sql world compiler query h
  = (Returns (frame world (h ++ [_log text]) text),
     (h ++ [_log text; con_sql text])%list).
Proof.
  intros text Hl Hs. unfold raw_sql, call. fold text.
  unfold andthen, perform. rewrite Hl, Hs, <- app_assoc. reflexivity.
Qed.

Lemma raw_sql_inv (query : string + Expression) (h h' : list Call)
      (f : Frame) :
  raw_sql world compiler query h = (Returns f, h') ->
  let text := match query with
              | inl text => text
              | inr e => sql compiler true e
              end in
  f = frame world (h ++ [_log text]) text /\
  h' = (h ++ [_log text; con_sql text])%list.
Proof.
  intros H text.
  destruct (raw_sql_cases query h) as [[e He] | [[e He] | (_ & _ & He)]];
    fold text in He; rewrite He in H; try discriminate H.
  injection H as <- <-. split; reflexivity.
Qed.

Lemma silent_andthen {A B : Type} (m : Action A) (k : A -> Action B) :
  silent m -> (forall a, silent (k a)) -> silent (andthen m k).
Proof.
  intros Hm Hk h. unfold andthen. specialize (Hm h).
  destruct (m h) as [[a | e] h1]; simpl in Hm; subst h1.
  - apply Hk.
  - reflexivity.
Qed.

Lemma silent_lift {A : Type} (o : Outcome A) : silent (lift o).
Proof. intros h. reflexivity. Qed.

Lemma silent_ret {A : Type} (a : A) : silent (ret a).
Proof. intros h. reflexivity. Qed.

(** *** [_metadata] *)

(** The [try] block of [_metadata] and its [finally]: whatever the block
    does, the view is dropped last. *)
Lemma describe_then_drop (view : Expression) (name : string)
      (h : list Call) :
  let describe := "DESCRIBE " ++ sql compiler false view in
  exists out mid,
    try_finally
      (andthen (raw_sql world compiler (inl describe))
               (fun described => lift (to_pydict compiler described)))
      (call world (drop_view name)) h
    = (out, (h ++ mid ++ [drop_view name])%list) /\
    (mid = [_log describe] \/ mid = [_log describe; con_sql describe]).
Proof.
  intros describe. unfold try_finally.
  destruct (raw_sql_cases (inl describe) h)
    as [[e He] | [[e He] | (_ & _ & He)]]; simpl in He.
  - rewrite (andthen_raises _ _ _ _ _ He).
    unfold call.
    destruct (perform_cases (drop_view name) (fun _ => tt)
                            (h ++ [_log describe])%list) as [Hd | [e' Hd]];
      rewrite Hd; eexists; exists [_log describe];
      (split; [rewrite <- app_assoc; reflexivity | left; reflexivity]).
  - rewrite (andthen_raises _ _ _ _ _ He).
    unfold call.
    destruct (perform_cases (drop_view name) (fun _ => tt)
                            (h ++ [_log describe; con_sql describe])%list)
      as [Hd | [e' Hd]];
      rewrite Hd; eexists; exists [_log describe; con_sql describe];
      (split; [rewrite <- app_assoc; reflexivity | right; reflexivity]).
  - rewrite (andthen_returns _ _ _ _ _ He). unfold lift, call.
    destruct (perform_cases (drop_view name) (fun _ => tt)
                            (h ++ [_log describe; con_sql describe])%list)
      as [Hd | [e' Hd]];
      rewrite Hd; eexists; exists [_log describe; con_sql describe];
      (split; [rewrite <- app_assoc; reflexivity | right; reflexivity]).
Qed.

(** X9.  [_metadata] cleans up after itself.  Once the temporary view has
    been created (the name generated, the query parsed, the [CREATE VIEW]
    logged and executed without raising), the last call of [_metadata] is
    [drop_view] of that view, whether the [DESCRIBE] was executed, raised,
    or was not even reached because logging it raised, and the view is
    dropped once (first and second part).  When the name could not be
    generated or the query not parsed, or when the [CREATE VIEW] raised,
    no view is dropped (third and fourth part), and the exception is the
    one [_metadata] raises (fourth to sixth part). *)
Theorem _metadata_drops_its_view (query : string) (h : list Call) :
  let g := gen_name "datafusion_metadata_view" in
  let name := generated world h "datafusion_metadata_view" in
  let view := table name None (Some (quoted compiler)) in
  let describe := "DESCRIBE " ++ sql compiler false view in
  (forall e,
      let src :=
        sql compiler true
            (Create "VIEW" view None (Properties [TemporaryProperty])
                    (Some e)) in
      raises world h g = None ->
      parse_one compiler query = Returns e ->
      raises world (h ++ [g]) (_log src) = None ->
      raises world ((h ++ [g]) ++ [_log src]) (con_sql src) = None ->
      exists mid,
        snd (_metadata world compiler query h)
        = (h ++ [g; _log src; con_sql src] ++ mid ++ [drop_view name])%list /\
        (mid = [_log describe] \/ mid = [_log describe; con_sql describe]))
  /\
  (forall t h',
      _metadata world compiler query h = (Returns t, h') ->
      exists pre, h' = (pre ++ [drop_view name])%list /\
                  forall n, ~ In (drop_view n) (skipn (length h) pre))
  /\
  ((raises world h g <> None \/
    (exists e, parse_one compiler query = Raises e)) ->
   forall n,
     ~ In (drop_view n)
       (skipn (length h) (snd (_metadata world compiler query h))))
  /\
  (forall e err h1,
      raises world h g = None ->
      parse_one compiler query = Returns e ->
      raw_sql world compiler
              (inr (Create "VIEW" view None (Properties [TemporaryProperty])
                           (Some e)))
              (h ++ [g])%list
      = (Raises err, h1) ->
      _metadata world compiler query h = (Raises err, h1) /\
      forall n, ~ In (drop_view n) (skipn (length h) h1))
  /\
  (forall e,
      raises world h g = Some e ->
      _metadata world compiler query h = (Raises e, (h ++ [g])%list))
  /\
  (forall e,
      raises world h g = None ->
      parse_one compiler query = Raises e ->
      _metadata world compiler query h = (Raises e, (h ++ [g])%list)).
Proof.
  intros g name view describe.
  split; [ | split; [ | split; [ | split; [ | split]]]].
  - intros e src Hg Hp Hl Hs.
    unfold _metadata.
    rewrite (andthen_returns _ _ _ _ _ (perform_returns g _ h Hg)).
    fold name view.
    rewrite (andthen_returns (lift (parse_one compiler query)) _
                             (h ++ [g])%list (h ++ [g])%list e)
      by (unfold lift; rewrite Hp; reflexivity).
    pose proof (raw_sql_returns
                  (inr (Create "VIEW" view None
                               (Properties [TemporaryProperty]) (Some e)))
                  (h ++ [g])%list Hl Hs) as He.
    cbv zeta in He; fold src in He.
    rewrite (andthen_returns _ _ _ _ _ He).
    destruct (describe_then_drop
                view name ((h ++ [g]) ++ [_log src; con_sql src])%list)
      as (out & mid & Htry & Hmid).
    fold describe in Htry, Hmid.
    exists mid. split; [ | exact Hmid].
    destruct out as [result | e'].
    + rewrite (andthen_returns _ _ _ _ _ Htry).
      match goal with
      | |- snd (?k ?x) = _ => assert (Hsilent : snd (k x) = x)
      end.
      { apply silent_andthen; [apply silent_lift | intros ?].
        apply silent_andthen; [apply silent_lift | intros ?].
        apply silent_andthen; [apply silent_lift | intros ?].
        apply silent_ret. }
      rewrite Hsilent, <- !app_assoc. reflexivity.
    + rewrite (andthen_raises _ _ _ _ _ Htry). simpl.
      rewrite <- !app_assoc. reflexivity.
  - intros t h' H. unfold _metadata in H.
    apply andthen_inv in H. destruct H as (nm & h1 & Hg & H).
    apply perform_inv in Hg. destruct Hg as (_ & -> & ->).
    fold name view in H.
    apply andthen_inv in H. destruct H as (e & h2 & Hp & H).
    apply lift_inv in Hp. destruct Hp as (_ & ->).
    apply andthen_inv in H. destruct H as (f & h3 & Hc & H).
    apply raw_sql_inv in Hc. destruct Hc as (_ & ->).
    apply andthen_inv in H. destruct H as (result & h4 & Htry & H).
    apply try_finally_inv in Htry. destruct Htry as (h5 & Hb & Hd).
    apply andthen_inv in Hb. destruct Hb as (f' & h6 & Hr & Hb).
    apply raw_sql_inv in Hr. destruct Hr as (_ & ->).
    apply lift_inv in Hb. destruct Hb as (_ & ->).
    unfold call in Hd. apply perform_inv in Hd. destruct Hd as (_ & _ & ->).
    apply andthen_inv in H. destruct H as (c1 & h7 & H1 & H).
    apply lift_inv in H1. destruct H1 as (_ & ->).
    apply andthen_inv in H. destruct H as (c2 & h8 & H2 & H).
    apply lift_inv in H2. destruct H2 as (_ & ->).
    apply andthen_inv in H. destruct H as (c3 & h9 & H3 & H).
    apply lift_inv in H3. destruct H3 as (_ & ->).
    unfold ret in H. injection H as _ <-.
    eexists. split; [reflexivity | ].
    intros n. rewrite <- !app_assoc, skipn_app, skipn_all, Nat.sub_diag.
    simpl. intros Hin.
    repeat (destruct Hin as [Hin | Hin]; try discriminate Hin).
    exact Hin.
  - intros Hfail n. unfold _metadata.
    destruct (perform_cases g (fun h0 => generated world h0
                                           "datafusion_metadata_view") h)
      as [Hg | [e Hg]].
    + destruct Hfail as [Hfail | [e He]].
      * exfalso. apply Hfail. unfold perform in Hg.
        destruct (raises world h g); [discriminate Hg | reflexivity].
      * rewrite (andthen_returns _ _ _ _ _ Hg).
        rewrite (andthen_raises (lift (parse_one compiler query)) _
                                (h ++ [g])%list (h ++ [g])%list e)
          by (unfold lift; rewrite He; reflexivity).
        simpl. rewrite skipn_app, skipn_all, Nat.sub_diag. simpl.
        intros [Hin | []]. discriminate Hin.
    + rewrite (andthen_raises _ _ _ _ _ Hg). simpl.
      rewrite skipn_app, skipn_all, Nat.sub_diag. simpl.
      intros [Hin | []]. discriminate Hin.
  - intros e err h1 Hg Hp He. split.
    + unfold _metadata.
      rewrite (andthen_returns _ _ _ _ _ (perform_returns g _ h Hg)).
      fold name view.
      rewrite (andthen_returns (lift (parse_one compiler query)) _
                               (h ++ [g])%list (h ++ [g])%list e)
        by (unfold lift; rewrite Hp; reflexivity).
      rewrite (andthen_raises _ _ _ _ _ He). reflexivity.
    + intros n.
      destruct (raw_sql_cases
                  (inr (Create "VIEW" view None
                               (Properties [TemporaryProperty]) (Some e)))
                  (h ++ [g])%list)
        as [[e' He'] | [[e' He'] | (_ & _ & He')]];
        rewrite He' in He; try discriminate He; injection He as _ <-;
        rewrite <- !app_assoc, skipn_app, skipn_all, Nat.sub_diag; simpl;
        intros Hin;
        repeat (destruct Hin as [Hin | Hin]; try discriminate Hin);
        exact Hin.
  - intros e Hg. unfold _metadata.
    rewrite (andthen_raises _ _ h (h ++ [g])%list e);
      [reflexivity | unfold perform; fold g; rewrite Hg; reflexivity].
  - intros e Hg Hp. unfold _metadata.
    rewrite (andthen_returns _ _ _ _ _ (perform_returns g _ h Hg)).
    rewrite (andthen_raises (lift (parse_one compiler query)) _
                            (h ++ [g])%list (h ++ [g])%list e)
      by (unfold lift; rewrite Hp; reflexivity).
    reflexivity.
Qed.

Lemma zip3_length {A B C : Type} (a : list A) :
  forall (b : list B) (c : list C),
    length (zip3 a b c) = Nat.min (length a) (Nat.min (length b) (length c)).
Proof.
  induction a as [ | x a IH]; intros [ | y b] [ | z c]; simpl;
    try reflexivity.
  rewrite IH. reflexivity.
Qed.

Lemma zip3_nth {A B C : Type} (a : list A) :
  forall (b : list B) (c : list C) i x y z,
    nth_error a i = Some x -> nth_error b i = Some y ->
    nth_error c i = Some z ->
    nth_error (zip3 a b c) i = Some (x, y, z).
Proof.
  induction a as [ | x0 a IH]; intros [ | y0 b] [ | z0 c] [ | i] x y z;
    simpl; intros Ha Hb Hc; try discriminate.
  - injection Ha as ->. injection Hb as ->. injection Hc as ->. reflexivity.
  - apply IH; assumption.
Qed.

(** X10.  The columns [_metadata] returns are read off the three columns
    of the described view, [column_name], [data_type] and [is_nullable],
    position by position and as far as the shortest of the three goes (a
    missing column is a [KeyError]); the type of a column is
    [from_string] of its type string, nullable exactly when its
    [is_nullable] entry is the string [YES]. *)
Theorem _metadata_columns
        (query : string) (h h' : list Call)
        (items : list (string * Outcome dt.DataType)) :
  _metadata world compiler query h = (Returns items, h') ->
  exists calls view d column_name data_type is_nullable,
    to_pydict compiler
              (frame world calls ("DESCRIBE " ++ sql compiler false view))
    = Returns d /\
    getitem d "column_name" = Returns column_name /\
    getitem d "data_type" = Returns data_type /\
    getitem d "is_nullable" = Returns is_nullable /\
    length items
    = Nat.min (length column_name)
              (Nat.min (length data_type) (length is_nullable)) /\
    forall i name type_string yes_no,
      nth_error column_name i = Some name ->
      nth_error data_type i = Some type_string ->
      nth_error is_nullable i = Some yes_no ->
      nth_error items i
      = Some (name,
              from_string compiler type_string (String.eqb yes_no "YES")).
Proof.
  intros H. unfold _metadata in H.
  apply andthen_inv in H. destruct H as (nm & h1 & Hg & H).
  apply andthen_inv in H. destruct H as (e & h2 & Hp & H).
  apply andthen_inv in H. destruct H as (f & h3 & Hc & H).
  apply andthen_inv in H. destruct H as (result & h4 & Htry & H).
  apply try_finally_inv in Htry. destruct Htry as (h5 & Hb & Hd).
  apply andthen_inv in Hb. destruct Hb as (f' & h6 & Hr & Hb).
  apply raw_sql_inv in Hr. destruct Hr as (-> & _).
  apply lift_inv in Hb. destruct Hb as (Hdict & _).
  apply andthen_inv in H. destruct H as (c1 & h7 & H1 & H).
  apply lift_inv in H1. destruct H1 as (H1 & _).
  apply andthen_inv in H. destruct H as (c2 & h8 & H2 & H).
  apply lift_inv in H2. destruct H2 as (H2 & _).
  apply andthen_inv in H. destruct H as (c3 & h9 & H3 & H).
  apply lift_inv in H3. destruct H3 as (H3 & _).
  unfold ret in H. injection H as <- _.
  eexists _, _, result, c1, c2, c3.
  split; [exact Hdict | ].
  repeat (split; [assumption | ]).
  split.
  - rewrite length_map. apply zip3_length.
  - intros i name type_string yes_no Hn Ht Hy.
    rewrite nth_error_map, (zip3_nth c1 c2 c3 i _ _ _ Hn Ht Hy).
    reflexivity.
Qed.

(** *** [create_table] *)

Lemma column_defs_length (schema : list (string * dt.DataType)) :
  forall defs,
    column_defs compiler schema = Returns defs ->
    length defs = length schema.
Proof.
  induction schema as [ | [col typ] schema IH]; simpl; intros defs H.
  - injection H as <-. reflexivity.
  - destruct (from_ibis compiler typ); [ | discriminate H].
    destruct (column_defs compiler schema) as [rest | ]; [ | discriminate H].
    injection H as <-. simpl. rewrite (IH rest eq_refl). reflexivity.
Qed.

Lemma column_defs_nth (schema : list (string * dt.DataType)) :
  forall defs i col typ,
    column_defs compiler schema = Returns defs ->
    nth_error schema i = Some (col, typ) ->
    exists kind,
      from_ibis compiler typ = Returns kind /\
      nth_error defs i
      = Some (ColumnDef
                (to_identifier col (quoted compiler)) kind
                (if dt.nullable typ then None
                 else Some [ColumnConstraint NotNullColumnConstraint])).
Proof.
  induction schema as [ | [col0 typ0] schema IH]; simpl;
    intros defs i col typ H Hi.
  - destruct i; discriminate Hi.
  - destruct (from_ibis compiler typ0) as [kind0 | ] eqn:Hk;
      [ | discriminate H].
    destruct (column_defs compiler schema) as [rest | ]; [ | discriminate H].
    injection H as <-. destruct i as [ | i]; simpl in Hi |- *.
    + injection Hi as <- <-. exists kind0. split; [exact Hk | reflexivity].
    + exact (IH rest i col typ eq_refl Hi).
Qed.

Lemma column_defs_raises (schema : list (string * dt.DataType)) :
  forall col typ e,
    In (col, typ) schema -> from_ibis compiler typ = Raises e ->
    exists e', column_defs compiler schema = Raises e'.
Proof.
  induction schema as [ | [col0 typ0] schema IH]; simpl;
    intros col typ e Hin He; [contradiction | ].
  destruct Hin as [Heq | Hin].
  - injection Heq as -> ->. rewrite He. exists e. reflexivity.
  - destruct (from_ibis compiler typ0); [ | eexists; reflexivity].
    destruct (IH col typ e Hin He) as [e' ->]. exists e'. reflexivity.
Qed.

(** X11.  [create_table] fails before any call is made when neither
    [obj] nor [schema] is given (it raises [ValueError]), and when the
    type of some column of the schema has no mapping: nothing has been
    logged, executed or registered then. *)
Theorem create_table_fails_before_any_call
        (name : string) (obj : option Obj)
        (schema : option (list (string * dt.DataType)))
        (database : option string) (temp overwrite : bool)
        (h : list Call) :
  (obj = None -> schema = None ->
   create_table world compiler name obj schema database temp overwrite h
   = (Raises (ValueError "Either `obj` or `schema` must be specified"), h))
  /\
  (forall columns col typ e,
      schema = Some columns -> In (col, typ) columns ->
      from_ibis compiler typ = Raises e ->
      exists e',
        create_table world compiler name obj schema database temp overwrite h
        = (Raises e', h)).
Proof.
  split.
  - intros -> ->. reflexivity.
  - intros columns col typ e -> Hin He.
    destruct (column_defs_raises columns col typ e Hin He) as [e' He'].
    exists e'. unfold create_table.
    destruct obj;
      apply andthen_raises; unfold lift; rewrite He'; reflexivity.
Qed.

(** X12.  The columns [create_table] declares: one per field of the
    schema, in the order of the schema, each under the name of its field
    (quoted as the compiler quotes) and with the mapped type; a column is
    declared [NOT NULL] exactly when the dtype of its field is not
    nullable. *)
Theorem create_table_columns_not_null
        (schema : list (string * dt.DataType)) (defs : list Expression) :
  column_defs compiler schema = Returns defs ->
  length defs = length schema /\
  forall i col typ,
    nth_error schema i = Some (col, typ) ->
    exists kind,
      from_ibis compiler typ = Returns kind /\
      nth_error defs i
      = Some (ColumnDef
                (to_identifier col (quoted compiler)) kind
                (if dt.nullable typ then None
                 else Some [ColumnConstraint NotNullColumnConstraint])).
Proof.
  intros H. split.
  - exact (column_defs_length schema defs H).
  - intros i col typ Hi. exact (column_defs_nth schema defs i col typ H Hi).
Qed.

(** X13.  When [create_table] returns, it has executed one statement,
    logged first: [CREATE TABLE] on the table [name] in [database], with
    [replace] as [overwrite], the temporary property exactly when [temp]
    is set, the columns of the schema when it has any (a schema with no
    column leaves the bare table) and the compiled query exactly when
    [obj] is given.  The pre-execute hooks run before it, and only when
    [obj] is given; the table is fetched last, by [name] with
    [schema=database]. *)
Theorem create_table_executes_one_statement
        (name : string) (obj : option Obj)
        (schema : option (list (string * dt.DataType)))
        (database : option string) (temp overwrite : bool)
        (h h' : list Call) (t : IbisTable) :
  create_table world compiler name obj schema database temp overwrite h
  = (Returns t, h') ->
  exists defs hooks query,
    column_defs compiler (match schema with Some s => s | None => [] end)
    = Returns defs /\
    let target := table name database (Some (quoted compiler)) in
    let text :=
      sql compiler true
          (Create "TABLE"
                  (match defs with
                   | [] => target
                   | _ :: _ => Schema target defs
                   end)
                  (Some overwrite)
                  (Properties (if temp then [TemporaryProperty] else []))
                  query) in
    h' = (h ++ hooks
            ++ [_log text; con_sql text; self_table (Some name) database])%list
    /\
    match obj with
    | None => hooks = [] /\ query = None
    | Some o =>
        let source :=
          match o with
          | an_Expr e => e
          | data d => memtable compiler d
          end in
        hooks = [_run_pre_execute_hooks source] /\
        exists q, _to_sqlglot compiler source = Returns q /\ query = Some q
    end.
Proof.
  intros H. unfold create_table in H.
  destruct obj as [o | ], schema as [columns | ]; try discriminate H;
    apply andthen_inv in H; destruct H as (defs & h1 & Hd & H);
    apply lift_inv in Hd; destruct Hd as (Hd & ->);
    exists defs;
    apply andthen_inv in H; destruct H as (query & h2 & Hq & H);
    apply andthen_inv in H; destruct H as (f & h3 & Hs & H);
    apply raw_sql_inv in Hs; destruct Hs as (_ & ->);
    unfold the_table in H; apply perform_inv in H;
    destruct H as (_ & _ & ->).
  1, 2: apply andthen_inv in Hq; destruct Hq as ([] & h4 & Hh & Hq);
    unfold call in Hh; apply perform_inv in Hh; destruct Hh as (_ & _ & ->);
    apply andthen_inv in Hq; destruct Hq as (q & h5 & Hc & Hq);
    apply lift_inv in Hc; destruct Hc as (Hc & ->);
    unfold ret in Hq; injection Hq as <- <-;
    eexists [_run_pre_execute_hooks _], (Some q);
    (split; [exact Hd | ]); cbv zeta; split;
    [ destruct defs; rewrite <- !app_assoc; reflexivity
    | split; [reflexivity | exists q; split; [exact Hc | reflexivity]] ].
  unfold ret in Hq. injection Hq as <- <-.
  exists [], None. split; [exact Hd | ]. cbv zeta. split.
  - destruct defs; rewrite <- !app_assoc; reflexivity.
  - split; reflexivity.
Qed.

(** *** UDF registration *)



End BackendFacts.

End datafusion_facts.

(** ** Concrete instances of the composition and backend theorems *)

Lemma LogicalBinary_requires_booleans_witness :
  (exists n, create (rlz := SpecRules) ops.And [One bool_column; One bool_column]
             = Ok n) /\
  (forall e,
      create (rlz := SpecRules) ops.Xor [One bool_column; One int_column]
      = Raise e ->
      exists m, e = ValidationError m).
Proof.
  split.
  - apply (proj1 (LogicalBinary_requires_booleans
                    (rlz := SpecRules) ops.And bool_column bool_column
                    (or_introl eq_refl))).
    reflexivity.
  - apply (proj2 (proj2 (LogicalBinary_requires_booleans
                           (rlz := SpecRules) ops.Xor bool_column int_column
                           (or_intror (or_intror (or_introl eq_refl)))))).
Defined.

Lemma boolean_nodes_compose_witness :
  (exists m, Not (rlz := SpecRules) (mkValue "lt" dt.boolean Columnar) = Ok m)
  /\
  (exists m, And (rlz := SpecRules) (mkValue "lt" dt.boolean Columnar)
                 (mkValue "in" dt.boolean Columnar) = Ok m) /\
  (exists m, Or (rlz := SpecRules) (mkValue "lt" dt.boolean Columnar)
                (mkValue "in" dt.boolean Columnar) = Ok m) /\
  (exists m, Xor (rlz := SpecRules) (mkValue "lt" dt.boolean Columnar)
                 (mkValue "in" dt.boolean Columnar) = Ok m) /\
  (forall true_expr false_null_expr,
      is_Ok (IfElse (rlz := SpecRules) (mkValue "lt" dt.boolean Columnar)
                    true_expr false_null_expr)
      = is_Ok (highest_precedence_dtype (Rules := SpecRules)
                                        [true_expr; false_null_expr])).
Proof.
  apply (boolean_nodes_compose
           (rlz := SpecRules) ops.Less ops.InValues
           [One int_column; One int_scalar]
           [One int_column; Many [int_scalar]]
           (mkNode ops.Less [One int_column; One int_scalar]
                   dt.boolean Columnar)
           (mkNode ops.InValues [One int_column; Many [int_scalar]]
                   dt.boolean Columnar)).
  - discriminate.
  - discriminate.
  - reflexivity.
  - reflexivity.
  - split; reflexivity.
  - split; reflexivity.
Defined.

Module datafusion_instances.

Import datafusion.

#[local] Existing Instance sample_foreign.

Lemma register_deregisters_first_witness :
  exists pre n reg,
    [@gen_name sample_foreign "read_csv";
     deregister_table (Some "read_csv_0");
     register_csv "read_csv_0" "data.csv" tt;
     self_table (Some "read_csv_0") None]
    = ([] ++ pre ++ [deregister_table n; reg; self_table n None])%list /\
    registers_under reg n /\
    (pre = [] \/ exists prefix, pre = [gen_name prefix]) /\
    True.
Proof.
  apply (datafusion_facts.register_deregisters_first
           quiet_world (a_path (Str "data.csv")) None tt
           [] _ "read_csv_0").
  reflexivity.
Defined.

(** A path of no recognised format, in a session where every attribute
    listed before [current_database] can be read: [register] raises
    [NotImplementedError], not the [ValueError] that names the readers. *)
Lemma register_unrecognised_path :
  register quiet_world (a_path (Str "data.json")) (Some "t") tt []
  = (Raises NotImplementedError, []).
Proof. reflexivity. Qed.

Lemma _register_in_memory_table_replaces_witness :
  exists reg,
    [@deregister_table sample_foreign (Some "t");
     register_dataset (Some "t") 0]
    = ([] ++ [deregister_table (Some "t"); reg])%list /\
    ((@nil nat <> [] /\ reg = register_record_batches (Some "t") [[]]) \/
     (@nil nat = [] /\ reg = register_dataset (Some "t") 0)).
Proof.
  apply (datafusion_facts._register_in_memory_table_replaces
           quiet_world "t" [] 0 []).
  reflexivity.
Defined.

(** With a session in which the [DESCRIBE] raises, the view is dropped
    all the same. *)
Lemma _metadata_drops_its_view_witness :
  exists mid,
    snd (_metadata no_describe_world sample_compiler "SELECT 1" [])
    = ([] ++ [@gen_name sample_foreign "datafusion_metadata_view";
              _log "CREATE VIEW datafusion_metadata_view_0";
              con_sql "CREATE VIEW datafusion_metadata_view_0"]
          ++ mid ++ [drop_view "datafusion_metadata_view_0"])%list /\
    (mid = [_log "DESCRIBE datafusion_metadata_view_0"] \/
     mid = [_log "DESCRIBE datafusion_metadata_view_0";
            con_sql "DESCRIBE datafusion_metadata_view_0"]).
Proof.
  apply (proj1 (datafusion_facts._metadata_drops_its_view
                  no_describe_world sample_compiler "SELECT 1" [])
               (text_node "SELECT 1"));
    reflexivity.
Defined.

Lemma _metadata_columns_witness :
  exists calls view d column_name data_type is_nullable,
    to_pydict sample_compiler
              (frame quiet_world calls
                     ("DESCRIBE " ++ sql sample_compiler false view))
    = Returns d /\
    getitem d "column_name" = Returns column_name /\
    getitem d "data_type" = Returns data_type /\
    getitem d "is_nullable" = Returns is_nullable /\
    length [("a", Returns (dt.Int64 true)); ("b", Returns (dt.String false))]
    = Nat.min (length column_name)
              (Nat.min (length data_type) (length is_nullable)) /\
    forall i name type_string yes_no,
      nth_error column_name i = Some name ->
      nth_error data_type i = Some type_string ->
      nth_error is_nullable i = Some yes_no ->
      nth_error [("a", Returns (dt.Int64 true));
                 ("b", Returns (dt.String false))] i
      = Some (name,
              from_string sample_compiler type_string
                          (String.eqb yes_no "YES")).
Proof.
  apply (datafusion_facts._metadata_columns
           quiet_world sample_compiler "SELECT 1" []
           [gen_name "datafusion_metadata_view";
            _log "CREATE VIEW datafusion_metadata_view_0";
            con_sql "CREATE VIEW datafusion_metadata_view_0";
            _log "DESCRIBE datafusion_metadata_view_0";
            con_sql "DESCRIBE datafusion_metadata_view_0";
            drop_view "datafusion_metadata_view_0"]).
  reflexivity.
Defined.

Lemma create_table_columns_not_null_witness :
  length [ColumnDef (to_identifier "id" true) (text_node "int64")
                    (Some [ColumnConstraint NotNullColumnConstraint]);
          ColumnDef (to_identifier "name" true) (text_node "string") None]
  = length [("id", dt.Int64 false); ("name", dt.String true)] /\
  forall i col typ,
    nth_error [("id", dt.Int64 false); ("name", dt.String true)] i
    = Some (col, typ) ->
    exists kind,
      from_ibis sample_compiler typ = Returns kind /\
      nth_error
        [ColumnDef (to_identifier "id" true) (text_node "int64")
                   (Some [ColumnConstraint NotNullColumnConstraint]);
         ColumnDef (to_identifier "name" true) (text_node "string") None] i
      = Some (ColumnDef
                (to_identifier col (quoted sample_compiler)) kind
                (if dt.nullable typ then None
                 else Some [ColumnConstraint NotNullColumnConstraint])).
Proof.
  apply (datafusion_facts.create_table_columns_not_null
           sample_compiler
           [("id", dt.Int64 false); ("name", dt.String true)]).
  reflexivity.
Defined.

(** A table created from a schema with no column and no [obj]. *)
Lemma create_table_executes_one_statement_witness :
  exists defs hooks query,
    column_defs sample_compiler [] = Returns defs /\
    [@_log sample_foreign "CREATE TABLE t"; con_sql "CREATE TABLE t";
     self_table (Some "t") (Some "db")]
    = ([] ++ hooks
          ++ [_log (sql sample_compiler true
                        (Create "TABLE"
                                (match defs with
                                 | [] => table "t" (Some "db") (Some true)
                                 | _ :: _ =>
                                     Schema (table "t" (Some "db") (Some true))
                                            defs
                                 end)
                                (Some false) (Properties [TemporaryProperty])
                                query));
              con_sql (sql sample_compiler true
                           (Create "TABLE"
                                   (match defs with
                                    | [] => table "t" (Some "db") (Some true)
                                    | _ :: _ =>
                                        Schema
                                          (table "t" (Some "db") (Some true))
                                          defs
                                    end)
                                   (Some false)
                                   (Properties [TemporaryProperty])
                                   query));
              self_table (Some "t") (Some "db")])%list /\
    (hooks = [] /\ query = None).
Proof.
  apply (datafusion_facts.create_table_executes_one_statement
           quiet_world sample_compiler "t" None (Some []) (Some "db")
           true false [] _ "t").
  reflexivity.
Defined.

End datafusion_instances.
